(** * The MELK BLE light session manager (ble-script.py)

    A shallow embedding of the script's connection manager: the packet
    encoders, the device resolver, the connect / disconnect / reconnect
    logic, the idle timer with its token check, the write-with-retry
    sender, and the command loop with [main] around it.

    Python values are modelled as follows.
    - [int] is [Z]; a [bytearray] is the list of its byte values.
    - [str] is [string]: the text in its UTF-8 encoding, where one text
      occurs in another exactly when its bytes do.  The two Unicode-aware
      methods the script calls, [str.lower] and [str.strip], are not
      implemented: they are given with the transport oracle.  The functions
      [lower] and [strip] below are their restriction to ASCII text, used to
      build concrete examples and to say what the scan test does on ASCII
      names.
    - [float] is [PyFloat]: a finite value is the rational number it
      denotes, and negative zero, the two infinities and NaN are values of
      their own.  The two constant timeouts handed to the scanner and to
      [wait_for] are kept as the rationals they denote.
    - an exception is its class name and its message.
    - the module globals are the fields of [Session]; the BLE stack is an
      oracle [Transport] indexed by a logical clock that advances at every
      suspension point ([await] of a scan, connect, disconnect, write or
      sleep).
    - an [asyncio.Task] is its identity, a number; [asyncio.current_task()]
      is the parameter [me]. *)

From Stdlib Require Import ZArith QArith Qabs List String Ascii Bool Arith Lia.
From Stdlib Require Import DecimalString.
Import ListNotations.
Close Scope Q_scope.
Open Scope string_scope.

(** ** Exceptions *)

Inductive Exn : Type :=
| PyExn (cls : string) (msg : string).

Definition RuntimeError (msg : string) : Exn := PyExn "RuntimeError" msg.
Definition ValueError (msg : string) : Exn := PyExn "ValueError" msg.

(** [str(e)] *)
Definition str_exn (e : Exn) : string :=
  match e with PyExn _ m => m end.

Inductive Outcome (A : Type) : Type :=
| Ret (a : A)
| Raise (e : Exn).
Arguments Ret {A} a.
Arguments Raise {A} e.

(** ** Floats *)

Inductive PyFloat : Type :=
| Finite (q : Q)
| NegZero
| PosInf
| NegInf
| NaN.

(** [x <= 0] *)
Definition float_le_zero (x : PyFloat) : bool :=
  match x with
  | Finite q => Qle_bool q 0
  | NegZero => true
  | PosInf => false
  | NegInf => true
  | NaN => false
  end.

(** [x > 0] *)
Definition float_gt_zero (x : PyFloat) : bool :=
  match x with
  | Finite q => negb (Qle_bool q 0)
  | PosInf => true
  | NegZero | NegInf | NaN => false
  end.

(** [not x]: the float is falsy. *)
Definition float_is_zero (x : PyFloat) : bool :=
  match x with
  | Finite q => Qeq_bool q 0
  | NegZero => true
  | PosInf | NegInf | NaN => false
  end.

(** ** Module constants *)

Definition MELK_NAMES : list string := ["MELK-OA21"].
Definition SCAN_TIMEOUT_S : Q := 1.
Definition CONNECT_TIMEOUT_S : Q := 8.
Definition WRITE_UUID : string := "0000fff3-0000-1000-8000-00805f9b34fb".
Definition WRITE_WITH_RESPONSE : bool := false.
Definition POST_WRITE_DELAY_S : PyFloat := Finite (5 # 100).
Definition DEFAULT_IDLE_TIMEOUT_S : PyFloat := Finite 300.

(** ** Packet encoders *)

Definition pkt_power (on : bool) : list Z :=
  [0x7E; 0x00; 0x04; if on then 0x01 else 0x00; 0x00; 0x00; 0x00; 0x00; 0xEF]%Z.

(** The [for v in (r, g, b)] loop of [pkt_color]: the first value outside
    0..255 raises. *)
Fixpoint check_rgb (vs : list Z) : Outcome unit :=
  match vs with
  | [] => Ret tt
  | v :: rest =>
      if negb ((0 <=? v) && (v <=? 255))%Z
      then Raise (ValueError "RGB values must be in 0..255")
      else check_rgb rest
  end.

Definition pkt_color (r g b : Z) : Outcome (list Z) :=
  match check_rgb [r; g; b] with
  | Raise e => Raise e
  | Ret _ => Ret [0x7E; 0x00; 0x05; 0x03; r; g; b; 0x00; 0xEF]%Z
  end.

(** ** Strings: [lower], [strip], [in], [join], [hex] *)

Definition lower_ascii (c : ascii) : ascii :=
  let n := nat_of_ascii c in
  if (65 <=? n)%nat && (n <=? 90)%nat then ascii_of_nat (n + 32) else c.

Fixpoint lower (s : string) : string :=
  match s with
  | EmptyString => EmptyString
  | String c s' => String (lower_ascii c) (lower s')
  end.

(** [str.isspace] on one ASCII character. *)
Definition is_space (c : ascii) : bool :=
  let n := nat_of_ascii c in
  ((9 <=? n)%nat && (n <=? 13)%nat) || ((28 <=? n)%nat && (n <=? 32)%nat).

Fixpoint lstrip (s : string) : string :=
  match s with
  | EmptyString => EmptyString
  | String c s' => if is_space c then lstrip s' else s
  end.

Fixpoint rstrip (s : string) : string :=
  match s with
  | EmptyString => EmptyString
  | String c s' =>
      match rstrip s' with
      | EmptyString => if is_space c then EmptyString else String c EmptyString
      | r => String c r
      end
  end.

Definition strip (s : string) : string := rstrip (lstrip s).

(** The text is ASCII: every byte of its encoding is below 128. *)
Fixpoint is_ascii_text (s : string) : bool :=
  match s with
  | EmptyString => true
  | String c s' => (nat_of_ascii c <? 128)%nat && is_ascii_text s'
  end.

(** [t in s] for strings: [t] occurs in [s] as a contiguous substring. *)
Fixpoint str_in (t s : string) : bool :=
  if prefix t s then true
  else match s with
       | EmptyString => false
       | String _ s' => str_in t s'
       end.

Definition join (sep : string) (l : list string) : string := concat sep l.

Definition hex_digit (n : Z) : string :=
  String (ascii_of_nat (Z.to_nat (if n <? 10 then 48 + n else 87 + n)%Z)) EmptyString.

Definition hex_byte (b : Z) : string :=
  hex_digit (b / 16) ++ hex_digit (b mod 16).

(** [payload.hex(' ')] *)
Definition hex_sep (payload : list Z) : string :=
  join " " (map hex_byte payload).

(** ** Floats as rationals: the comparison with 0 and the [.1f] format *)

Definition dec (n : Z) : string :=
  NilZero.string_of_uint (N.to_uint (Z.to_N n)).

(** Nearest integer to a non-negative rational, ties to even (the rounding
    of Python's float formatting applied to the exact value). *)
Definition round_half_even (q : Q) : Z :=
  let n := Qnum q in
  let d := Zpos (Qden q) in
  let fl := (n / d)%Z in
  let r := (n mod d)%Z in
  match (2 * r ?= d)%Z with
  | Lt => fl
  | Gt => (fl + 1)%Z
  | Eq => if Z.even fl then fl else (fl + 1)%Z
  end.

(** [f"{q:.1f}"] for a finite value. *)
Definition format_1f_finite (q : Q) : string :=
  let t := round_half_even (Qabs q * 10)%Q in
  (if (Qnum q <? 0)%Z then "-" else "") ++ dec (t / 10) ++ "." ++ dec (t mod 10).

(** [f"{x:.1f}"] *)
Definition format_1f (x : PyFloat) : string :=
  match x with
  | Finite q => format_1f_finite q
  | NegZero => "-0.0"
  | PosInf => "inf"
  | NegInf => "-inf"
  | NaN => "nan"
  end.

(** ** Devices, clients, tasks and the transport oracle *)

(** A discovered peripheral ([BLEDevice]); [name] may be [None]. *)
Record BLEDevice : Type := mkDevice {
  name : option string;
  address : string
}.

(** A [BleakClient] object: its identity and the address it was built for. *)
Record Client : Type := mkClient {
  client_id : nat;
  client_address : string
}.

Definition TaskId : Type := nat.

(** The task that runs the command loop. *)
Definition MAIN_TASK : TaskId := 0%nat.

(** What the script gets from outside.  The BLE stack, as seen at logical
    time [t]: what a scan, a connect, a disconnect or a write started at [t]
    answers ([None]: it returned, [Some e]: it raised [e], which for
    [connect] includes the [asyncio.wait_for] timeout), and what
    [is_connected] reads at [t].  And the two string methods of the Python
    runtime, [str.lower] and [str.strip]. *)
Record Transport : Type := mkTransport {
  scan_result : nat -> Exn + list BLEDevice;
  connect_result : nat -> Client -> option Exn;
  link_up : nat -> Client -> bool;
  disconnect_result : nat -> Client -> option Exn;
  write_result : nat -> Client -> list Z -> option Exn;
  str_lower : string -> string;
  str_strip : string -> string
}.

Inductive Event : Type :=
| EvAcquire
| EvRelease
| EvScan (timeout : Q) (r : Exn + list BLEDevice)
| EvConnect (c : Client) (timeout : Q) (r : option Exn)
| EvDisconnect (c : Client) (r : option Exn)
| EvWrite (c : Client) (uuid : string) (payload : list Z) (response : bool)
          (r : option Exn)
| EvSleep (d : PyFloat)
| EvCreateTask (t : TaskId) (timeout : PyFloat)
| EvCancel (t : TaskId)
| EvPrint (line : string).

(** ** Session state: the module globals and the runtime around them *)

Record Session : Type := mkSession {
  _resolved_device : option BLEDevice;
  _client : option Client;
  _idle_timeout_s : option PyFloat;
  _idle_task : option TaskId;
  clock : nat;              (* suspension points passed so far *)
  next_client : nat;        (* identity of the next BleakClient object *)
  next_task : TaskId;       (* identity of the next created task *)
  cancelled : list TaskId;  (* tasks on which cancel() was called *)
  trace : list Event        (* what happened, oldest first *)
}.

Definition initial : Session :=
  mkSession None None (Some DEFAULT_IDLE_TIMEOUT_S) None 0 0 1 [] [].

Definition set_resolved_device (v : option BLEDevice) (s : Session) : Session :=
  mkSession v (_client s) (_idle_timeout_s s) (_idle_task s) (clock s)
            (next_client s) (next_task s) (cancelled s) (trace s).

Definition set_client (v : option Client) (s : Session) : Session :=
  mkSession (_resolved_device s) v (_idle_timeout_s s) (_idle_task s) (clock s)
            (next_client s) (next_task s) (cancelled s) (trace s).

Definition set_idle_timeout_s (v : option PyFloat) (s : Session) : Session :=
  mkSession (_resolved_device s) (_client s) v (_idle_task s) (clock s)
            (next_client s) (next_task s) (cancelled s) (trace s).

Definition set_idle_task (v : option TaskId) (s : Session) : Session :=
  mkSession (_resolved_device s) (_client s) (_idle_timeout_s s) v (clock s)
            (next_client s) (next_task s) (cancelled s) (trace s).

Definition tick (s : Session) : Session :=
  mkSession (_resolved_device s) (_client s) (_idle_timeout_s s) (_idle_task s)
            (S (clock s)) (next_client s) (next_task s) (cancelled s) (trace s).

Definition log (e : Event) (s : Session) : Session :=
  mkSession (_resolved_device s) (_client s) (_idle_timeout_s s) (_idle_task s)
            (clock s) (next_client s) (next_task s) (cancelled s) (trace s ++ [e]).

Definition fresh_client (s : Session) : Session :=
  mkSession (_resolved_device s) (_client s) (_idle_timeout_s s) (_idle_task s)
            (clock s) (S (next_client s)) (next_task s) (cancelled s) (trace s).

Definition fresh_task (s : Session) : Session :=
  mkSession (_resolved_device s) (_client s) (_idle_timeout_s s) (_idle_task s)
            (clock s) (next_client s) (S (next_task s)) (cancelled s) (trace s).

Definition mark_cancelled (t : TaskId) (s : Session) : Session :=
  mkSession (_resolved_device s) (_client s) (_idle_timeout_s s) (_idle_task s)
            (clock s) (next_client s) (next_task s) (t :: cancelled s) (trace s).

(** ** The monad of the script: state and exceptions *)

Definition M (A : Type) : Type := Session -> Outcome A * Session.

Definition ret {A} (a : A) : M A := fun s => (Ret a, s).

Definition raise {A} (e : Exn) : M A := fun s => (Raise e, s).

Definition bind {A B} (m : M A) (f : A -> M B) : M B :=
  fun s => match m s with
           | (Ret a, s1) => f a s1
           | (Raise e, s1) => (Raise e, s1)
           end.

(** [try: m  except Exception as e: h e] *)
Definition try_except {A} (m : M A) (h : Exn -> M A) : M A :=
  fun s => match m s with
           | (Ret a, s1) => (Ret a, s1)
           | (Raise e, s1) => h e s1
           end.

(** [try: m  finally: fin], for a [fin] that only assigns. *)
Definition try_finally {A} (m : M A) (fin : Session -> Session) : M A :=
  fun s => let (r, s1) := m s in (r, fin s1).

Definition get {A} (f : Session -> A) : M A := fun s => (Ret (f s), s).

Definition modify (f : Session -> Session) : M unit := fun s => (Ret tt, f s).

Definition lift {A} (o : Outcome A) : M A := fun s => (o, s).

Declare Scope script_scope.
Delimit Scope script_scope with script.
Notation "x <- m ;; k" := (bind m (fun x => k))
  (at level 61, m at next level, right associativity) : script_scope.
Notation "m ;; k" := (bind m (fun _ => k))
  (at level 61, right associativity) : script_scope.
Open Scope script_scope.

Definition of_option (r : option Exn) : Outcome unit :=
  match r with
  | None => Ret tt
  | Some e => Raise e
  end.

Definition print (line : string) : M unit := modify (log (EvPrint line)).

(** [async with _tx_lock: body]: released on return and on exception. *)
Definition with_tx_lock {A} (body : M A) : M A :=
  fun s => let (r, s1) := body (log EvAcquire s) in (r, log EvRelease s1).

(** [await asyncio.sleep(d)] in a task that is not cancelled meanwhile. *)
Definition sleep (d : PyFloat) : M unit := modify (fun s => log (EvSleep d) (tick s)).

(** ** The script *)

Definition or_empty (n : option string) : string :=
  match n with
  | Some v => v
  | None => ""
  end.

(** The test of the scan loop:
    [any(target.lower() in name.lower() for target in MELK_NAMES)] with
    [name = (device.name or "").strip()]. *)
Definition device_matches (T : Transport) (device : BLEDevice) : bool :=
  let nm := str_strip T (or_empty (name device)) in
  existsb (fun target => str_in (str_lower T target) (str_lower T nm))
          MELK_NAMES.

Definition not_found_message : string :=
  "No BLE device found matching names: " ++ join ", " MELK_NAMES.

Definition _idle_timeout_label (s : Session) : string :=
  match _idle_timeout_s s with
  | None => "off"
  | Some v => format_1f v ++ "s"
  end.

Definition is_task (o : option TaskId) (t : TaskId) : bool :=
  match o with
  | Some t' => (t' =? t)%nat
  | None => false
  end.

Definition was_cancelled (t : TaskId) (s : Session) : bool :=
  existsb (Nat.eqb t) (cancelled s).

(** [f"{last_error}"] *)
Definition str_last_error (last_error : option Exn) : string :=
  match last_error with
  | Some e => str_exn e
  | None => "None"
  end.

Section Script.

(** The BLE stack the script talks to, and [asyncio.current_task()]. *)
Variable T : Transport.
Variable me : TaskId.

Definition BleakScanner_discover (timeout : Q) : M (list BLEDevice) :=
  fun s =>
    let r := scan_result T (clock s) in
    (match r with inl e => Raise e | inr ds => Ret ds end,
     log (EvScan timeout r) (tick s)).

(** [_client = BleakClient(device_address)] *)
Definition new_BleakClient (device_address : string) : M Client :=
  fun s =>
    let c := mkClient (next_client s) device_address in
    (Ret c, set_client (Some c) (fresh_client s)).

(** [await asyncio.wait_for(c.connect(), timeout=timeout)] *)
Definition wait_for_connect (c : Client) (timeout : Q) : M unit :=
  fun s =>
    let r := connect_result T (clock s) c in
    (of_option r, log (EvConnect c timeout r) (tick s)).

(** [c.is_connected] *)
Definition client_is_connected (c : Client) : M bool :=
  fun s => (Ret (link_up T (clock s) c), s).

(** [await c.disconnect()] *)
Definition client_disconnect (c : Client) : M unit :=
  fun s =>
    let r := disconnect_result T (clock s) c in
    (of_option r, log (EvDisconnect c r) (tick s)).

(** [await c.write_gatt_char(WRITE_UUID, payload, response=WRITE_WITH_RESPONSE)] *)
Definition client_write (c : Client) (payload : list Z) : M unit :=
  fun s =>
    let r := write_result T (clock s) c payload in
    (of_option r,
     log (EvWrite c WRITE_UUID payload WRITE_WITH_RESPONSE r) (tick s)).

(** [task.cancel()] *)
Definition task_cancel (t : TaskId) : M unit :=
  modify (fun s => log (EvCancel t) (mark_cancelled t s)).

(** [_idle_task = asyncio.create_task(_idle_disconnect_worker(_idle))] *)
Definition create_idle_task (_idle : PyFloat) : M unit :=
  fun s =>
    let t := next_task s in
    (Ret tt, log (EvCreateTask t _idle) (set_idle_task (Some t) (fresh_task s))).

Definition resolve_device_address : M string :=
  cached <- get _resolved_device;;
  match cached with
  | Some device => ret (address device)
  | None =>
      devices <- BleakScanner_discover SCAN_TIMEOUT_S;;
      match find (device_matches T) devices with
      | Some device =>
          modify (set_resolved_device (Some device));;
          ret (address device)
      | None => raise (RuntimeError not_found_message)
      end
  end.

Definition _cancel_idle_task_locked : M unit :=
  cur <- get _idle_task;;
  match cur with
  | None => ret tt
  | Some t =>
      (if negb (t =? me)%nat then task_cancel t else ret tt);;
      modify (set_idle_task None)
  end.

Definition _arm_idle_timer_locked : M unit :=
  _cancel_idle_task_locked;;
  cl <- get _client;;
  match cl with
  | None => ret tt
  | Some c =>
      up <- client_is_connected c;;
      if negb up then ret tt
      else
        timeout <- get _idle_timeout_s;;
        match timeout with
        | None => ret tt
        | Some _idle =>
            if float_le_zero _idle then ret tt
            else create_idle_task _idle
        end
  end.

Definition _disconnect_client (reason : string) : M unit :=
  _cancel_idle_task_locked;;
  cl <- get _client;;
  match cl with
  | None => ret tt
  | Some c =>
      try_finally
        (up <- client_is_connected c;;
         if up then client_disconnect c else ret tt)
        (set_client None)
  end.

(** The body of the [try] of one connect attempt.  The lock is held, so
    the global [_client] read after the connect is the client just built. *)
Definition connect_attempt : M Client :=
  device_address <- resolve_device_address;;
  c <- new_BleakClient device_address;;
  wait_for_connect c CONNECT_TIMEOUT_S;;
  up <- client_is_connected c;;
  if negb up then raise (RuntimeError "Failed to connect")
  else
    _arm_idle_timer_locked;;
    ret c.

(** [raise RuntimeError(f"Unable to connect: {last_error}")] *)
Definition unable_to_connect {A} (last_error : option Exn) : M A :=
  raise (RuntimeError ("Unable to connect: " ++ str_last_error last_error)).

(** [for attempt in attempts: try: ... except Exception as e: ...],
    followed by the final [raise]. *)
Fixpoint connect_attempts (attempts : list nat) (last_error : option Exn)
  : M Client :=
  match attempts with
  | [] => unable_to_connect last_error
  | attempt :: rest =>
      try_except connect_attempt
        (fun e =>
           _disconnect_client "";;
           modify (set_resolved_device None);;
           if (attempt =? 2)%nat
           then unable_to_connect (Some e)
           else connect_attempts rest (Some e))
  end.

Definition _ensure_connected : M Client :=
  cl <- get _client;;
  live <- match cl with
          | None => ret None
          | Some c =>
              up <- client_is_connected c;;
              ret (if up then Some c else None)
          end;;
  match live with
  | Some c =>
      _arm_idle_timer_locked;;
      ret c
  | None =>
      _disconnect_client "";;
      connect_attempts [1; 2]%nat None
  end.

Definition ensure_connected : M unit :=
  with_tx_lock (_ensure_connected;; ret tt).

Definition disconnect : M unit :=
  with_tx_lock (_disconnect_client "").

Definition reconnect : M unit :=
  with_tx_lock (_disconnect_client "";; _ensure_connected;; ret tt).

Definition connection_status : M string :=
  with_tx_lock
    (cl <- get _client;;
     up <- match cl with
           | None => ret false
           | Some c => client_is_connected c
           end;;
     label <- get _idle_timeout_label;;
     if up then ret ("connected (idle timeout: " ++ label ++ ")")
     else ret ("disconnected (idle timeout: " ++ label ++ ")")).

Definition set_idle_timeout (value : option PyFloat) : M string :=
  with_tx_lock
    (modify (set_idle_timeout_s value);;
     _arm_idle_timer_locked;;
     get _idle_timeout_label).

Definition send (payload : list Z) : M unit :=
  with_tx_lock
    (client <- _ensure_connected;;
     try_except (client_write client payload)
       (fun _ =>
          _disconnect_client "";;
          client <- _ensure_connected;;
          client_write client payload);;
     (if float_is_zero POST_WRITE_DELAY_S then ret tt
      else sleep POST_WRITE_DELAY_S);;
     _arm_idle_timer_locked;;
     print ("sent: " ++ hex_sep payload)).

(** The [try: await asyncio.sleep(timeout_s)  except CancelledError: return]
    of the worker: [false] when the task was cancelled. *)
Definition sleep_unless_cancelled (timeout_s : PyFloat) : M bool :=
  fun s =>
    if was_cancelled me s then (Ret false, s)
    else (Ret true, log (EvSleep timeout_s) (tick s)).

(** Run by the task [me] that [create_idle_task] created. *)
Definition _idle_disconnect_worker (timeout_s : PyFloat) : M unit :=
  woke <- sleep_unless_cancelled timeout_s;;
  if negb woke then ret tt
  else
    with_tx_lock
      (cur <- get _idle_task;;
       if negb (is_task cur me) then ret tt
       else
         _disconnect_client ("idle timeout (" ++ format_1f timeout_s ++ "s)");;
         print "auto-disconnected").

(** The [color R G B] and preset branches of [command_loop] once the
    arguments are parsed: the packet is built before [send] is entered, and
    the [except Exception] of the loop prints the error. *)
Definition command_color (r g b : Z) : M unit :=
  try_except
    (payload <- lift (pkt_color r g b);;
     send payload)
    (fun e => print ("error: " ++ str_exn e)).

End Script.

(** ** Sequences of operations

    Every public operation holds [_tx_lock] from start to end, and the idle
    worker holds it for all it does to the session, so a run of the program
    is a sequence of whole operations.  The commands run in the main task;
    each idle worker runs as its own task. *)

Inductive Op : Type :=
| OpEnsureConnected
| OpDisconnect
| OpReconnect
| OpStatus
| OpSetIdleTimeout (value : option PyFloat)
| OpSend (payload : list Z)
| OpIdleWorker (t : TaskId) (timeout_s : PyFloat)
| OpWait.

Definition exec {A} (m : M A) (s : Session) : Session := snd (m s).

Definition run_op (T : Transport) (op : Op) (s : Session) : Session :=
  match op with
  | OpEnsureConnected => exec (ensure_connected T MAIN_TASK) s
  | OpDisconnect => exec (disconnect T MAIN_TASK) s
  | OpReconnect => exec (reconnect T MAIN_TASK) s
  | OpStatus => exec (connection_status T) s
  | OpSetIdleTimeout value => exec (set_idle_timeout T MAIN_TASK value) s
  | OpSend payload => exec (send T MAIN_TASK payload) s
  | OpIdleWorker t timeout_s => exec (_idle_disconnect_worker T t timeout_s) s
  | OpWait => tick s
  end.

Definition run_ops (T : Transport) (ops : list Op) (s : Session) : Session :=
  fold_left (fun acc op => run_op T op acc) ops s.

(** ** What the specification's words mean on this model *)

(** The error taxonomy: every error of the script itself is a
    [RuntimeError] or [ValueError] told apart by its message. *)
Definition NotFoundError : Exn := RuntimeError not_found_message.

Definition ConnectError (last_cause : Exn) : Exn :=
  RuntimeError ("Unable to connect: " ++ str_exn last_cause).

Definition InvalidArgument : Exn := ValueError "RGB values must be in 0..255".

Definition in_byte_range (v : Z) : Prop := (0 <= v <= 255)%Z.

(** [nm] contains [target], ignoring case: the lower-cased [target]
    occurs in the lower-cased [nm]. *)
Definition ci_contains (T : Transport) (target nm : string) : Prop :=
  exists pre post, str_lower T nm = pre ++ str_lower T target ++ post.

(** The advertised name of [d], read as the script reads it ([None] as the
    empty string, the white space around it stripped), contains one of the
    target names. *)
Definition advertised_name (T : Transport) (d : BLEDevice) : string :=
  str_strip T (or_empty (name d)).

Definition name_matches (T : Transport) (d : BLEDevice) : Prop :=
  exists target,
    In target MELK_NAMES /\ ci_contains T target (advertised_name T d).

Definition is_transport_event (ev : Event) : bool :=
  match ev with
  | EvScan _ _ | EvConnect _ _ _ | EvDisconnect _ _ | EvWrite _ _ _ _ _ => true
  | _ => false
  end.

Definition is_write (ev : Event) : bool :=
  match ev with
  | EvWrite _ _ _ _ _ => true
  | _ => false
  end.

Definition is_connect (ev : Event) : bool :=
  match ev with
  | EvConnect _ _ _ => true
  | _ => false
  end.

Definition is_scan (ev : Event) : bool :=
  match ev with
  | EvScan _ _ => true
  | _ => false
  end.

Definition count (p : Event -> bool) (evs : list Event) : nat :=
  List.length (filter p evs).

(** The idle timer is armed: a timer token is recorded. *)
Definition armed (s : Session) : Prop := _idle_task s <> None.

(** The invariant of the session at every release of the lock. *)
Definition timer_has_connection (s : Session) : Prop :=
  _idle_task s <> None -> _client s <> None.

(** [m] appends to the trace, and at most [n] of the events it appends
    satisfy [p]. *)
Definition at_most {A} (p : Event -> bool) (n : nat) (m : M A) : Prop :=
  forall s, exists evs,
    trace (snd (m s)) = (trace s ++ evs)%list /\ (count p evs <= n)%nat.

Definition is_lock (ev : Event) : bool :=
  match ev with
  | EvAcquire | EvRelease => true
  | _ => false
  end.

Definition is_disconnect (ev : Event) : bool :=
  match ev with
  | EvDisconnect _ _ => true
  | _ => false
  end.

(** [s'] differs from [s] at most in the task machinery and the trace. *)
Definition untouched (s s' : Session) : Prop :=
  _client s' = _client s /\
  _resolved_device s' = _resolved_device s /\
  _idle_timeout_s s' = _idle_timeout_s s /\
  clock s' = clock s /\
  next_client s' = next_client s.

(** The link of the recorded client is up at the current time. *)
Definition live (T : Transport) (s : Session) : Prop :=
  exists c, _client s = Some c /\ link_up T (clock s) c = true.

(** The idle timeout lets a timer be armed: it is not [None] and the test
    [timeout <= 0] fails (the value is greater than 0, or it is NaN). *)
Definition timeout_enabled (s : Session) : Prop :=
  exists v, _idle_timeout_s s = Some v /\ float_le_zero v = false.

(** The idle timeout is a number strictly greater than 0. *)
Definition timeout_positive (s : Session) : Prop :=
  exists v, _idle_timeout_s s = Some v /\ float_gt_zero v = true.

(** What the transport answers to the disconnect request that
    [_disconnect_client] makes in state [s]: the request is made only for a
    recorded client whose link is up. *)
Definition transport_disconnect_failure (T : Transport) (s : Session)
  : option Exn :=
  match _client s with
  | Some c =>
      if link_up T (clock s) c then disconnect_result T (clock s) c else None
  | None => None
  end.

(** ** Concrete peripherals, transports and sessions used in the examples *)

Definition BleakError (msg : string) : Exn := PyExn "BleakError" msg.

Definition melk_device : BLEDevice :=
  mkDevice (Some "MELK-OA21") "BE:16:A5:00:12:34".

Definition other_device : BLEDevice := mkDevice (Some "OtherDevice") "AA:BB".

Definition melk_client : Client := mkClient 0 "BE:16:A5:00:12:34".

(** A stack on which everything succeeds and the link stays up. *)
Definition T_good : Transport :=
  mkTransport (fun _ => inr [melk_device]) (fun _ _ => None)
              (fun _ _ => true) (fun _ _ => None) (fun _ _ _ => None)
              lower strip.

(** As [T_good], but every transport disconnect raises. *)
Definition T_disconnect_fails : Transport :=
  mkTransport (fun _ => inr [melk_device]) (fun _ _ => None)
              (fun _ _ => true)
              (fun _ _ => Some (BleakError "disconnect failed"))
              (fun _ _ _ => None)
              lower strip.

(** A session connected to the light, with the idle timer (task 1) armed. *)
Definition s_connected : Session :=
  mkSession (Some melk_device) (Some melk_client)
            (Some DEFAULT_IDLE_TIMEOUT_S) (Some 1%nat) 2 1 2 []
            [EvAcquire;
             EvScan SCAN_TIMEOUT_S (inr [melk_device]);
             EvConnect melk_client CONNECT_TIMEOUT_S None;
             EvCreateTask 1%nat DEFAULT_IDLE_TIMEOUT_S;
             EvRelease].

(** [m] takes every state to one related to it by [R], whatever it returns
    or raises. *)
Definition guar {A} (R : Session -> Session -> Prop) (m : M A) : Prop :=
  forall s, R s (snd (m s)).

(** A relation on sessions that the bookkeeping of the model (trace and
    clock) does not affect and that is closed under sequencing. *)
Record Stable (R : Session -> Session -> Prop) : Prop := mkStable {
  stable_refl : forall s, R s s;
  stable_trans : forall s1 s2 s3, R s1 s2 -> R s2 s3 -> R s1 s3;
  stable_log : forall ev s, R s (log ev s);
  stable_tick : forall s, R s (tick s);
  stable_resolved : forall v s, R s (set_resolved_device v s);
  stable_new_client : forall c s, R s (set_client (Some c) (fresh_client s))
}.

(** Timer tokens are never reused: a token recorded after a step is the one
    recorded before it or one created during it. *)
Definition fresh_tokens (s s' : Session) : Prop :=
  (next_task s <= next_task s')%nat /\
  (forall t, _idle_task s' = Some t ->
             _idle_task s = Some t \/ (next_task s <= t < next_task s')%nat).

Definition keeps_timer_has_connection (s s' : Session) : Prop :=
  timer_has_connection s -> timer_has_connection s'.

(** The worker run by task [w] from state [s] ends without raising and
    without touching the session: either it was cancelled in its sleep and
    nothing happened, or it slept, took the lock, and released it at once. *)
Definition worker_exits_silently (T : Transport) (w : TaskId) (timeout_s : PyFloat)
           (s : Session) : Prop :=
  fst (_idle_disconnect_worker T w timeout_s s) = Ret tt /\
  (snd (_idle_disconnect_worker T w timeout_s s) = s \/
   snd (_idle_disconnect_worker T w timeout_s s)
   = log EvRelease (log EvAcquire (log (EvSleep timeout_s) (tick s)))).

(** The link comes up for the connect and is lost while [send] waits out
    its post-write delay. *)
Definition T_link_drops : Transport :=
  mkTransport (fun _ => inr [melk_device]) (fun _ _ => None)
              (fun t _ => (t <? 4)%nat) (fun _ _ => None) (fun _ _ _ => None)
              lower strip.

(** A scan that sees only the unrelated peripheral; nothing else is ever
    asked of this stack. *)
Definition T_other_only : Transport :=
  mkTransport (fun _ => inr [other_device]) (fun _ _ => None)
              (fun _ _ => false) (fun _ _ => None) (fun _ _ _ => None)
              lower strip.



(** The first connect fails; everything after it succeeds. *)
Definition T_first_connect_fails : Transport :=
  mkTransport (fun _ => inr [melk_device])
              (fun t _ => if (t <=? 1)%nat then Some (BleakError "connect failed")
                          else None)
              (fun t _ => (2 <=? t)%nat)
              (fun _ _ => None) (fun _ _ _ => None)
              lower strip.

(** The trace only grows. *)
Definition extends (s s' : Session) : Prop :=
  exists evs, trace s' = (trace s ++ evs)%list.

Definition list_Z_eqb (a b : list Z) : bool :=
  if list_eq_dec Z.eq_dec a b then true else false.

(** A write that is not the write of [payload] to [WRITE_UUID] without
    response. *)
Definition is_other_write (payload : list Z) (ev : Event) : bool :=
  match ev with
  | EvWrite _ uuid data response _ =>
      negb (String.eqb uuid WRITE_UUID && list_Z_eqb data payload
            && Bool.eqb response WRITE_WITH_RESPONSE)
  | _ => false
  end.

(** The body of [send], under the lock. *)
Definition send_locked (T : Transport) (me : TaskId) (payload : list Z)
  : M unit :=
  client <- _ensure_connected T me;;
  try_except (client_write T client payload)
    (fun _ =>
       _disconnect_client T me "";;
       client <- _ensure_connected T me;;
       client_write T client payload);;
  (if float_is_zero POST_WRITE_DELAY_S then ret tt
   else sleep POST_WRITE_DELAY_S);;
  _arm_idle_timer_locked T me;;
  print ("sent: " ++ hex_sep payload).

(** The first write fails; everything else succeeds, also the retry. *)
Definition T_first_write_fails : Transport :=
  mkTransport (fun _ => inr [melk_device]) (fun _ _ => None)
              (fun _ _ => true) (fun _ _ => None)
              (fun t _ _ => if (t <=? 2)%nat then Some (BleakError "write failed")
                            else None)
              lower strip.

(** Every write fails. *)
Definition T_writes_fail : Transport :=
  mkTransport (fun _ => inr [melk_device]) (fun _ _ => None)
              (fun _ _ => true) (fun _ _ => None)
              (fun t _ _ => Some (BleakError "write failed"))
              lower strip.

(** Client objects are numbered in the order of their creation. *)
Definition client_order (s s' : Session) : Prop :=
  (next_client s <= next_client s')%nat.

Definition is_print (ev : Event) : bool :=
  match ev with
  | EvPrint _ => true
  | _ => false
  end.

(** Timer tokens are well formed: every cancelled token and the recorded
    token were created earlier (tokens are handed out from 1 upwards), and
    the recorded token has not been cancelled. *)
Definition tokens_wf (s : Session) : Prop :=
  (0 < next_task s)%nat /\
  (forall t, In t (cancelled s) -> (0 < t < next_task s)%nat) /\
  (forall t, _idle_task s = Some t ->
             (0 < t < next_task s)%nat /\ ~ In t (cancelled s)).

Definition keeps_tokens_wf (s s' : Session) : Prop :=
  tokens_wf s -> tokens_wf s'.

(** ** The command loop

    The loop is modelled from the list of words of each input line
    ([line.split()], empty for a blank line).  Python's [int], [float] and
    [int(x, 16)] are parameters of the model. *)

Definition nl : string := String (ascii_of_nat 10) EmptyString.

(** The text printed by [print_help]. *)
Definition HELP_TEXT : string :=
  concat nl
    ["";
     "Commands:";
     "  connect             Connect and keep the session open";
     "  disconnect          Disconnect current session";
     "  reconnect           Force reconnect";
     "  status              Show connection status";
     "  idle                Show idle timeout";
     "  idle <sec|off>      Set idle timeout (auto-disconnect)";
     "  on                  Power on";
     "  off                 Power off";
     "  blue|red|green|white Set common colors";
     "  color R G B          Set color by RGB (0-255 each)";
     "  raw <hex...>         Send raw bytes, e.g. raw 7e 00 04 01 00 00 00 00 ef";
     "  help                 Show this help";
     "  quit|exit            Exit";
     ""].

Definition print_help : M unit := print HELP_TEXT.

Definition presets : list (string * (Z * Z * Z)) :=
  [("red", (255, 0, 0)); ("green", (0, 255, 0)); ("blue", (0, 0, 255));
   ("white", (255, 255, 255))]%Z.

(** [presets[cmd]] when [cmd in presets]. *)
Definition lookup_preset (cmd : string) : option (Z * Z * Z) :=
  option_map snd (find (fun kv => String.eqb (fst kv) cmd) presets).

(** [input] at the end of the input. *)
Definition EOFError : Exn := PyExn "EOFError" "EOF when reading a line".

(** [try: m  finally: await fin]: an error of [fin] replaces the outcome
    of [m]. *)
Definition try_finally_do {A} (m : M A) (fin : M unit) : M A :=
  fun s =>
    let (r, s1) := m s in
    match fin s1 with
    | (Ret _, s2) => (r, s2)
    | (Raise e, s2) => (Raise e, s2)
    end.

Section CommandLoop.

Variable T : Transport.
Variable parse_int : string -> Outcome Z.    (* int(x) *)
Variable parse_float : string -> Outcome PyFloat.  (* float(x) *)
Variable parse_hex : string -> Outcome Z.    (* int(x, 16) *)

(** [bytearray(int(x, 16) for x in words)]: the words are converted and
    checked one after the other. *)
Fixpoint raw_bytes (words : list string) : Outcome (list Z) :=
  match words with
  | [] => Ret []
  | x :: rest =>
      match parse_hex x with
      | Raise e => Raise e
      | Ret v =>
          if negb ((0 <=? v) && (v <? 256))%Z
          then Raise (ValueError "byte must be in range(0, 256)")
          else match raw_bytes rest with
               | Raise e => Raise e
               | Ret vs => Ret (v :: vs)
               end
      end
  end.

(** The [idle] branch. *)
Definition command_idle (parts : list string) : M unit :=
  if (List.length parts =? 1)%nat then
    label <- get _idle_timeout_label;;
    print ("idle timeout: " ++ label)
  else if negb (List.length parts =? 2)%nat then
    print "usage: idle <sec|off>"
  else if String.eqb (str_lower T (nth 1 parts "")) "off" then
    label <- set_idle_timeout T MAIN_TASK None;;
    print ("idle timeout set to " ++ label)
  else
    seconds <- lift (parse_float (nth 1 parts ""));;
    if float_le_zero seconds
    then raise (ValueError "idle seconds must be > 0, or use 'off'")
    else
      label <- set_idle_timeout T MAIN_TASK (Some seconds);;
      print ("idle timeout set to " ++ label).

(** The body of the [try] of one turn of the loop, for a non-blank line;
    [true] stands for the [return] of the quit branch. *)
Definition command_body (parts : list string) : M bool :=
  let cmd := str_lower T (hd "" parts) in
  if String.eqb cmd "quit" || String.eqb cmd "exit" then
    disconnect T MAIN_TASK;; ret true
  else if String.eqb cmd "help" then
    print_help;; ret false
  else if String.eqb cmd "connect" then
    ensure_connected T MAIN_TASK;; print "connected";; ret false
  else if String.eqb cmd "disconnect" then
    disconnect T MAIN_TASK;; print "disconnected";; ret false
  else if String.eqb cmd "reconnect" then
    reconnect T MAIN_TASK;; print "reconnected";; ret false
  else if String.eqb cmd "status" then
    line <- connection_status T;; print line;; ret false
  else if String.eqb cmd "idle" then
    command_idle parts;; ret false
  else if String.eqb cmd "on" then
    send T MAIN_TASK (pkt_power true);; ret false
  else if String.eqb cmd "off" then
    send T MAIN_TASK (pkt_power false);; ret false
  else
    match lookup_preset cmd with
    | Some (r, g, b) =>
        payload <- lift (pkt_color r g b);;
        send T MAIN_TASK payload;; ret false
    | None =>
        if String.eqb cmd "color" then
          if negb (List.length parts =? 4)%nat then
            print "usage: color R G B   (each 0-255)";; ret false
          else
            r <- lift (parse_int (nth 1 parts ""));;
            g <- lift (parse_int (nth 2 parts ""));;
            b <- lift (parse_int (nth 3 parts ""));;
            payload <- lift (pkt_color r g b);;
            send T MAIN_TASK payload;; ret false
        else if String.eqb cmd "raw" then
          if (List.length parts <? 2)%nat then
            print "usage: raw <hex bytes...>";; ret false
          else
            data <- lift (raw_bytes (tl parts));;
            send T MAIN_TASK data;; ret false
        else
          print ("unknown command: " ++ cmd ++ " (type 'help')");; ret false
    end.

(** One turn for a non-blank line: the [try] and its
    [except Exception as e: print(f"error: {e}")]. *)
Definition command_turn (parts : list string) : M bool :=
  try_except (command_body parts)
    (fun e => print ("error: " ++ str_exn e);; ret false).

(** The [while True] loop over the remaining input lines. *)
Fixpoint command_turns (lines : list (list string)) : M unit :=
  match lines with
  | [] => raise EOFError
  | parts :: rest =>
      match parts with
      | [] => command_turns rest
      | _ :: _ =>
          quit <- command_turn parts;;
          if quit then ret tt else command_turns rest
      end
  end.

Definition command_loop (lines : list (list string)) : M unit :=
  print_help;; command_turns lines.

Definition main (lines : list (list string)) : M unit :=
  try_finally_do (command_loop lines) (disconnect T MAIN_TASK).

End CommandLoop.

(** The idle timeout is disabled or a value for which [timeout <= 0] is
    false. *)
Definition timeout_ok (s : Session) : Prop :=
  match _idle_timeout_s s with
  | None => True
  | Some v => float_le_zero v = false
  end.

Definition same_timeout (s s' : Session) : Prop :=
  _idle_timeout_s s' = _idle_timeout_s s.

(** [m] never returns [true]. *)
Definition never_true (m : M bool) : Prop :=
  forall s b s', m s = (Ret b, s') -> b = false.

Definition is_quit (T : Transport) (parts : list string) : bool :=
  String.eqb (str_lower T (hd "" parts)) "quit"
  || String.eqb (str_lower T (hd "" parts)) "exit".

Definition keeps_timeout_ok (s s' : Session) : Prop :=
  timeout_ok s -> timeout_ok s'.

(** The session after the command [idle nan]: [float] accepts the word, the
    test [seconds <= 0] fails for NaN, and [set_idle_timeout] stores it. *)
Definition s_nan : Session :=
  exec (set_idle_timeout T_good MAIN_TASK (Some NaN)) initial.


(** * Properties *)

(** ** Running a sequence step by step *)

Lemma bind_ret_eq {A B} (m : M A) (f : A -> M B) (s s1 : Session) (a : A) :
  m s = (Ret a, s1) -> bind m f s = f a s1.
Proof. intros H. unfold bind. now rewrite H. Qed.

Lemma bind_raise_eq {A B} (m : M A) (f : A -> M B) (s s1 : Session) (e : Exn) :
  m s = (Raise e, s1) -> bind m f s = (Raise e, s1).
Proof. intros H. unfold bind. now rewrite H. Qed.

Lemma try_except_ret_eq {A} (m : M A) (h : Exn -> M A) (s s1 : Session) (a : A) :
  m s = (Ret a, s1) -> try_except m h s = (Ret a, s1).
Proof. intros H. unfold try_except. now rewrite H. Qed.


(** ** Running the encoders and the string functions *)

Example format_5 : format_1f (Finite 5) = "5.0".
Proof. reflexivity. Qed.

Example format_quarter : format_1f (Finite (1 # 4)) = "0.2".
Proof. reflexivity. Qed.

Example format_default : format_1f DEFAULT_IDLE_TIMEOUT_S = "300.0".
Proof. reflexivity. Qed.

Example format_small_negative : format_1f (Finite (- (4 # 100))) = "-0.0".
Proof. reflexivity. Qed.

Example nan_is_not_le_zero :
  float_le_zero NaN = false /\ float_gt_zero NaN = false.
Proof. split; reflexivity. Qed.

Example hex_power_on : hex_sep (pkt_power true) = "7e 00 04 01 00 00 00 00 ef".
Proof. reflexivity. Qed.

Example strip_spaces : strip "  MELK-OA21 x  " = "MELK-OA21 x".
Proof. reflexivity. Qed.

Example pkt_color_red : pkt_color 255 0 0 = Ret [126; 0; 5; 3; 255; 0; 0; 0; 239]%Z.
Proof. reflexivity. Qed.

Example pkt_color_300 : pkt_color 300 0 0 = Raise InvalidArgument.
Proof. reflexivity. Qed.

(** ** The colour encoder *)

Lemma check_rgb_ok (r g b : Z) :
  in_byte_range r -> in_byte_range g -> in_byte_range b ->
  check_rgb [r; g; b] = Ret tt.
Proof.
  unfold in_byte_range; intros Hr Hg Hb; simpl.
  replace ((0 <=? r) && (r <=? 255))%Z with true by (symmetry; apply andb_true_iff; split; apply Z.leb_le; lia).
  replace ((0 <=? g) && (g <=? 255))%Z with true by (symmetry; apply andb_true_iff; split; apply Z.leb_le; lia).
  replace ((0 <=? b) && (b <=? 255))%Z with true by (symmetry; apply andb_true_iff; split; apply Z.leb_le; lia).
  reflexivity.
Qed.

Lemma range_test (v : Z) :
  ((0 <=? v) && (v <=? 255))%Z = true <-> in_byte_range v.
Proof.
  unfold in_byte_range; rewrite andb_true_iff, !Z.leb_le; tauto.
Qed.

Lemma check_rgb_raises (r g b : Z) :
  ~ (in_byte_range r /\ in_byte_range g /\ in_byte_range b) ->
  check_rgb [r; g; b] = Raise InvalidArgument.
Proof.
  intros H; simpl.
  destruct ((0 <=? r) && (r <=? 255))%Z eqn:Er; [|reflexivity].
  destruct ((0 <=? g) && (g <=? 255))%Z eqn:Eg; [|reflexivity].
  destruct ((0 <=? b) && (b <=? 255))%Z eqn:Eb; [|reflexivity].
  exfalso; apply H; rewrite <- !range_test; auto.
Qed.

(** C8: the colour encoder raises [InvalidArgument] exactly when one of R, G,
    B is outside 0..255, and otherwise returns the nine bytes
    7E 00 05 03 R G B 00 EF; when it raises, the [color] command has made no
    transport call: it has only printed the error. *)
Theorem pkt_color_checks_range (r g b : Z) :
  (pkt_color r g b = Raise InvalidArgument <->
   ~ (in_byte_range r /\ in_byte_range g /\ in_byte_range b)) /\
  (in_byte_range r /\ in_byte_range g /\ in_byte_range b ->
   pkt_color r g b = Ret [0x7E; 0x00; 0x05; 0x03; r; g; b; 0x00; 0xEF]%Z) /\
  (~ (in_byte_range r /\ in_byte_range g /\ in_byte_range b) ->
   forall T me s,
     command_color T me r g b s
     = (Ret tt, log (EvPrint "error: RGB values must be in 0..255") s)).
Proof.
  assert (Hok : in_byte_range r /\ in_byte_range g /\ in_byte_range b ->
                pkt_color r g b = Ret [0x7E; 0x00; 0x05; 0x03; r; g; b; 0x00; 0xEF]%Z).
  { intros (Hr & Hg & Hb); unfold pkt_color.
    rewrite (check_rgb_ok r g b Hr Hg Hb); reflexivity. }
  assert (Hbad : ~ (in_byte_range r /\ in_byte_range g /\ in_byte_range b) ->
                 pkt_color r g b = Raise InvalidArgument).
  { intros H; unfold pkt_color; rewrite (check_rgb_raises r g b H); reflexivity. }
  split; [|split].
  - split.
    + intros Hraise Hin. rewrite (Hok Hin) in Hraise. discriminate.
    + exact Hbad.
  - exact Hok.
  - intros H T me s. unfold command_color, try_except, bind, lift.
    rewrite (Hbad H). reflexivity.
Qed.

Lemma pkt_color_checks_range_witness :
  pkt_color 300 0 0 = Raise InvalidArgument /\
  pkt_color 1 2 3 = Ret [0x7E; 0x00; 0x05; 0x03; 1; 2; 3; 0x00; 0xEF]%Z.
Proof.
  split.
  - apply (proj1 (pkt_color_checks_range 300 0 0)).
    unfold in_byte_range; lia.
  - apply (proj1 (proj2 (pkt_color_checks_range 1 2 3))).
    unfold in_byte_range; lia.
Defined.

(** ** Counting the events an operation adds to the trace *)

Lemma count_app (p : Event -> bool) (a b : list Event) :
  count p (a ++ b) = (count p a + count p b)%nat.
Proof.
  unfold count. rewrite filter_app, length_app. reflexivity.
Qed.

Lemma at_most_weaken {A} p n k (m : M A) :
  (n <= k)%nat -> at_most p n m -> at_most p k m.
Proof.
  intros Hle H s. destruct (H s) as (evs & Ht & Hc).
  exists evs. split; [assumption|lia].
Qed.

Lemma at_most_ret {A} p n (a : A) : at_most p n (ret a).
Proof. intros s. exists []. simpl. rewrite app_nil_r. split; [reflexivity|apply Nat.le_0_l]. Qed.

Lemma at_most_raise {A} p n e : at_most p n (@raise A e).
Proof. intros s. exists []. simpl. rewrite app_nil_r. split; [reflexivity|apply Nat.le_0_l]. Qed.

Lemma at_most_get {A} p n (f : Session -> A) : at_most p n (get f).
Proof. intros s. exists []. simpl. rewrite app_nil_r. split; [reflexivity|apply Nat.le_0_l]. Qed.

Lemma at_most_lift {A} p n (o : Outcome A) : at_most p n (lift o).
Proof. intros s. exists []. simpl. rewrite app_nil_r. split; [reflexivity|apply Nat.le_0_l]. Qed.

Lemma at_most_modify p n (f : Session -> Session) :
  (forall s, trace (f s) = trace s) -> at_most p n (modify f).
Proof.
  intros Hf s. exists []. simpl. rewrite app_nil_r, Hf.
  split; [reflexivity|apply Nat.le_0_l].
Qed.

Lemma at_most_bind {A B} p n k t (m : M A) (f : A -> M B) :
  (n + k <= t)%nat ->
  at_most p n m -> (forall a, at_most p k (f a)) ->
  at_most p t (bind m f).
Proof.
  intros Hle Hm Hf s. unfold bind.
  destruct (Hm s) as (evs & Ht & Hc).
  destruct (m s) as [[a|e] s1]; simpl in *.
  - destruct (Hf a s1) as (evs' & Ht' & Hc').
    exists (evs ++ evs')%list. rewrite Ht', Ht, app_assoc, count_app.
    split; [reflexivity|lia].
  - exists evs. split; [assumption|lia].
Qed.

Lemma at_most_try_except {A} p n k t (m : M A) (h : Exn -> M A) :
  (n + k <= t)%nat ->
  at_most p n m -> (forall e, at_most p k (h e)) ->
  at_most p t (try_except m h).
Proof.
  intros Hle Hm Hh s. unfold try_except.
  destruct (Hm s) as (evs & Ht & Hc).
  destruct (m s) as [[a|e] s1]; simpl in *.
  - exists evs. split; [assumption|lia].
  - destruct (Hh e s1) as (evs' & Ht' & Hc').
    exists (evs ++ evs')%list. rewrite Ht', Ht, app_assoc, count_app.
    split; [reflexivity|lia].
Qed.

Lemma at_most_try_finally {A} p n (m : M A) (fin : Session -> Session) :
  (forall s, trace (fin s) = trace s) ->
  at_most p n m -> at_most p n (try_finally m fin).
Proof.
  intros Hfin Hm s. unfold try_finally.
  destruct (Hm s) as (evs & Ht & Hc).
  destruct (m s) as [r s1]; simpl in *.
  exists evs. rewrite Hfin. auto.
Qed.

(** An operation that logs exactly one event. *)
Lemma at_most_one_event {A} p (m : M A) (ev : Session -> Event) n :
  (forall s, trace (snd (m s)) = (trace s ++ [ev s])%list) ->
  (forall s, (count p [ev s] <= n)%nat) ->
  at_most p n m.
Proof.
  intros Ht Hc s. exists [ev s]. auto.
Qed.

Lemma count_one_false p ev n : p ev = false -> (count p [ev] <= n)%nat.
Proof. intros H. unfold count. simpl. rewrite H. apply Nat.le_0_l. Qed.

Lemma count_one_le p ev n : (1 <= n)%nat -> (count p [ev] <= n)%nat.
Proof. intros H. unfold count. simpl. destruct (p ev); simpl; lia. Qed.

Section ScriptEvents.

Variable T : Transport.
Variable me : TaskId.
Variable p : Event -> bool.

(** [p] does not count the events of the task machinery. *)
Hypothesis p_cancel : forall t, p (EvCancel t) = false.
Hypothesis p_create : forall t q, p (EvCreateTask t q) = false.

Lemma at_most_task_cancel n t : at_most p n (task_cancel t).
Proof.
  apply (at_most_one_event p _ (fun _ => EvCancel t)); [reflexivity|].
  intros _. apply count_one_false, p_cancel.
Qed.

Lemma at_most_cancel_idle n : at_most p n (_cancel_idle_task_locked me).
Proof.
  unfold _cancel_idle_task_locked.
  apply (at_most_bind p 0 n); [lia|apply at_most_get|intros [t|]].
  - apply (at_most_bind p n 0); [lia| |intros _; apply at_most_modify; reflexivity].
    destruct (negb (t =? me)%nat); [apply at_most_task_cancel|apply at_most_ret].
  - apply at_most_ret.
Qed.

Lemma at_most_client_is_connected n c : at_most p n (client_is_connected T c).
Proof.
  intros s. exists []. simpl. rewrite app_nil_r.
  split; [reflexivity|apply Nat.le_0_l].
Qed.

Lemma at_most_create_idle_task n q : at_most p n (create_idle_task q).
Proof.
  apply (at_most_one_event p _ (fun s => EvCreateTask (next_task s) q));
    [reflexivity|].
  intros s. apply count_one_false, p_create.
Qed.

Lemma at_most_arm n : at_most p n (_arm_idle_timer_locked T me).
Proof.
  unfold _arm_idle_timer_locked.
  apply (at_most_bind p 0 n); [lia|apply at_most_cancel_idle|intros _].
  apply (at_most_bind p 0 n); [lia|apply at_most_get|intros [c|]];
    [|apply at_most_ret].
  apply (at_most_bind p 0 n); [lia|apply at_most_client_is_connected|intros up].
  destruct (negb up); [apply at_most_ret|].
  apply (at_most_bind p 0 n); [lia|apply at_most_get|intros [q|]];
    [|apply at_most_ret].
  destruct (float_le_zero q); [apply at_most_ret|apply at_most_create_idle_task].
Qed.

(** [nd] bounds what [p] counts in one transport disconnect. *)
Variable nd : nat.
Hypothesis p_disconnect : forall c r, (count p [EvDisconnect c r] <= nd)%nat.

Lemma at_most_client_disconnect c : at_most p nd (client_disconnect T c).
Proof.
  apply (at_most_one_event p _
           (fun s => EvDisconnect c (disconnect_result T (clock s) c)));
    [reflexivity|].
  intros s. apply p_disconnect.
Qed.

Lemma at_most_disconnect_client reason :
  at_most p nd (_disconnect_client T me reason).
Proof.
  unfold _disconnect_client.
  apply (at_most_bind p 0 nd); [lia|apply at_most_cancel_idle|intros _].
  apply (at_most_bind p 0 nd); [lia|apply at_most_get|intros [c|]];
    [|apply at_most_ret].
  apply at_most_try_finally; [reflexivity|].
  apply (at_most_bind p 0 nd); [lia|apply at_most_client_is_connected|intros up].
  destruct up; [apply at_most_client_disconnect|apply at_most_ret].
Qed.

(** [ns] and [nc] bound what [p] counts in one scan and in one connect made
    with the timeouts of the script. *)
Variable ns nc : nat.
Hypothesis p_scan : forall r, (count p [EvScan SCAN_TIMEOUT_S r] <= ns)%nat.
Hypothesis p_connect :
  forall c r, (count p [EvConnect c CONNECT_TIMEOUT_S r] <= nc)%nat.

Lemma at_most_resolve : at_most p ns (resolve_device_address T).
Proof.
  unfold resolve_device_address.
  apply (at_most_bind p 0 ns); [lia|apply at_most_get|intros [d|]];
    [apply at_most_ret|].
  apply (at_most_bind p ns 0); [lia| |intros ds].
  - apply (at_most_one_event p _
             (fun s => EvScan SCAN_TIMEOUT_S (scan_result T (clock s))));
      [reflexivity|].
    intros s. apply p_scan.
  - destruct (find (device_matches T) ds); [|apply at_most_raise].
    apply (at_most_bind p 0 0); [lia| |intros _; apply at_most_ret].
    apply at_most_modify; reflexivity.
Qed.

Lemma at_most_connect_attempt : at_most p (ns + nc) (connect_attempt T me).
Proof.
  unfold connect_attempt.
  apply (at_most_bind p ns nc); [lia|apply at_most_resolve|intros addr].
  apply (at_most_bind p 0 nc); [lia| |intros c].
  { intros s. exists []. simpl. rewrite app_nil_r.
    split; [reflexivity|apply Nat.le_0_l]. }
  apply (at_most_bind p nc 0); [lia| |intros _].
  { apply (at_most_one_event p _
             (fun s => EvConnect c CONNECT_TIMEOUT_S
                         (connect_result T (clock s) c)));
      [reflexivity|].
    intros s. apply p_connect. }
  apply (at_most_bind p 0 0); [lia|apply at_most_client_is_connected|intros up].
  destruct (negb up); [apply at_most_raise|].
  apply (at_most_bind p 0 0); [lia|apply at_most_arm|intros _; apply at_most_ret].
Qed.

Lemma at_most_connect_attempts attempts last_error :
  at_most p (List.length attempts * (ns + nc + nd))
          (connect_attempts T me attempts last_error).
Proof.
  revert last_error.
  induction attempts as [|attempt rest IH]; intros last_error; simpl.
  - apply at_most_raise.
  - apply (at_most_try_except p (ns + nc)
             (nd + List.length rest * (ns + nc + nd)));
      [lia|apply at_most_connect_attempt|intros e].
    apply (at_most_bind p nd (List.length rest * (ns + nc + nd)));
      [lia|apply at_most_disconnect_client|intros _].
    apply (at_most_bind p 0 (List.length rest * (ns + nc + nd)));
      [lia|apply at_most_modify; reflexivity|intros _].
    destruct (attempt =? 2)%nat; [apply at_most_raise|apply IH].
Qed.

Lemma at_most_ensure_connected :
  at_most p (nd + 2 * (ns + nc + nd)) (_ensure_connected T me).
Proof.
  unfold _ensure_connected.
  apply (at_most_bind p 0 (nd + 2 * (ns + nc + nd)));
    [lia|apply at_most_get|intros cl].
  apply (at_most_bind p 0 (nd + 2 * (ns + nc + nd))); [lia| |intros live].
  { destruct cl as [c|]; [|apply at_most_ret].
    apply (at_most_bind p 0 0);
      [lia|apply at_most_client_is_connected|intros up; apply at_most_ret]. }
  destruct live as [c|].
  - apply (at_most_bind p 0 0); [lia|apply at_most_arm|intros _; apply at_most_ret].
  - apply (at_most_bind p nd (2 * (ns + nc + nd)));
      [lia|apply at_most_disconnect_client|intros _].
    apply (at_most_connect_attempts [1; 2]%nat).
Qed.

End ScriptEvents.


(** ** The idle timer and the disconnect, step by step *)

Lemma cancel_idle_spec (me : TaskId) (s : Session) :
  exists s',
    _cancel_idle_task_locked me s = (Ret tt, s') /\
    _idle_task s' = None /\
    untouched s s' /\
    next_task s' = next_task s /\
    (forall t, _idle_task s = Some t -> t <> me -> In t (cancelled s')) /\
    (forall t, In t (cancelled s') ->
               In t (cancelled s) \/ (_idle_task s = Some t /\ t <> me)).
Proof.
  unfold _cancel_idle_task_locked, bind, get, untouched.
  destruct (_idle_task s) as [t|] eqn:Et; simpl.
  - destruct (t =? me)%nat eqn:Eme; simpl.
    + eexists; split; [reflexivity|]. simpl.
      apply Nat.eqb_eq in Eme.
      repeat split; auto.
      intros t' Ht' Hne. inversion Ht'; subst. congruence.
    + eexists; split; [reflexivity|]. simpl.
      apply Nat.eqb_neq in Eme.
      repeat split; auto.
      * intros t' Ht' _. inversion Ht'; subst. now left.
      * intros t' [Ht'|Ht']; [right; subst; auto|now left].
  - eexists; split; [reflexivity|]. simpl.
    rewrite Et. repeat split; auto; intros; discriminate.
Qed.

Lemma arm_spec (T : Transport) (me : TaskId) (s : Session) :
  exists s',
    _arm_idle_timer_locked T me s = (Ret tt, s') /\
    untouched s s' /\
    (armed s' <-> live T s /\ timeout_enabled s) /\
    (forall t, _idle_task s' = Some t ->
               t = next_task s /\ next_task s' = S (next_task s)) /\
    (next_task s <= next_task s')%nat /\
    (forall t, _idle_task s = Some t -> t <> me -> In t (cancelled s')) /\
    (forall t, In t (cancelled s') ->
               In t (cancelled s) \/ (_idle_task s = Some t /\ t <> me)).
Proof.
  unfold _arm_idle_timer_locked, bind at 1.
  destruct (cancel_idle_spec me s)
    as (s1 & Hrun & Hidle & (Hc & Hr & Ht & Hk & Hn) & Hnt & Hcan & Hcan').
  rewrite Hrun. unfold bind, get, client_is_connected, armed, live,
    timeout_enabled, untouched.
  assert (Hno : forall s2, _idle_task s2 = None ->
                           ~ (_idle_task s2 <> None)) by (intros; congruence).
  rewrite Hc.
  destruct (_client s) as [c|] eqn:Ec; cbv beta iota.
  - rewrite Hk.
    destruct (link_up T (clock s) c) eqn:Eup; unfold negb; cbv beta iota.
    + rewrite Ht. destruct (_idle_timeout_s s) as [v|] eqn:Ev; cbv beta iota.
      * destruct (float_le_zero v) eqn:Ele; cbv beta iota.
        -- exists s1. split; [reflexivity|]. rewrite Hidle.
           split; [repeat split; auto|].
           split; [split; [congruence|]|].
           { intros [_ (v' & Hv' & Hpos)]. inversion Hv'; subst.
             congruence. }
           repeat split; auto; try discriminate; lia.
        -- eexists. split; [reflexivity|]. simpl. rewrite Hnt.
           split; [repeat split; auto|].
           split; [split; [intros _|discriminate]|].
           { split; [exists c; auto|].
             exists v; split; [reflexivity|exact Ele]. }
           repeat split; auto; try congruence; lia.
      * exists s1. split; [reflexivity|]. rewrite Hidle.
        split; [repeat split; auto|].
        split; [split; [congruence|]|].
        { intros [_ (v' & Hv' & _)]. discriminate. }
        repeat split; auto; try discriminate; lia.
    + exists s1. split; [reflexivity|]. rewrite Hidle.
      split; [repeat split; auto|].
      split; [split; [congruence|]|].
      { intros [(c' & Hc' & Hup) _]. inversion Hc'; subst. congruence. }
      repeat split; auto; try discriminate; lia.
  - exists s1. split; [reflexivity|]. rewrite Hidle.
    split; [repeat split; auto|].
    split; [split; [congruence|]|].
    { intros [(c' & Hc' & _) _]. discriminate. }
    repeat split; auto; try discriminate; lia.
Qed.

Lemma disconnect_client_spec (T : Transport) (me : TaskId) (reason : string)
      (s : Session) :
  exists s',
    _disconnect_client T me reason s
    = (of_option (transport_disconnect_failure T s), s') /\
    _client s' = None /\
    _idle_task s' = None /\
    _resolved_device s' = _resolved_device s /\
    _idle_timeout_s s' = _idle_timeout_s s /\
    next_client s' = next_client s /\
    next_task s' = next_task s /\
    (clock s <= clock s')%nat /\
    (~ live T s -> clock s' = clock s) /\
    (forall t, _idle_task s = Some t -> t <> me -> In t (cancelled s')) /\
    (forall t, In t (cancelled s') ->
               In t (cancelled s) \/ (_idle_task s = Some t /\ t <> me)).
Proof.
  unfold _disconnect_client, bind at 1.
  destruct (cancel_idle_spec me s)
    as (s1 & Hrun & Hidle & (Hc & Hr & Ht & Hk & Hn) & Hnt & Hcan & Hcan').
  rewrite Hrun. unfold bind, get, try_finally, client_is_connected,
    transport_disconnect_failure, live.
  rewrite Hc.
  destruct (_client s) as [c|] eqn:Ec; cbv beta iota.
  - rewrite Hk.
    destruct (link_up T (clock s) c) eqn:Eup; cbv beta iota.
    + unfold client_disconnect. rewrite Hk.
      eexists. split; [reflexivity|]. simpl.
      repeat split; auto; try lia.
      intros Hnl. exfalso. apply Hnl. exists c. auto.
    + eexists. split; [reflexivity|]. simpl.
      repeat split; auto; try lia.
  - exists s1. split; [reflexivity|].
    repeat split; auto; try lia.
Qed.

(** Without a client and without a timer, [_disconnect_client] does
    nothing. *)
Lemma disconnect_client_idle (T : Transport) (me : TaskId) (reason : string)
      (s : Session) :
  _client s = None -> _idle_task s = None ->
  _disconnect_client T me reason s = (Ret tt, s).
Proof.
  intros Hc Hi.
  unfold _disconnect_client, _cancel_idle_task_locked, bind, get.
  rewrite Hi. simpl. rewrite Hc. reflexivity.
Qed.

Lemma was_cancelled_In (t : TaskId) (s : Session) :
  was_cancelled t s = true <-> In t (cancelled s).
Proof.
  unfold was_cancelled. rewrite existsb_exists. split.
  - intros (x & Hx & He). apply Nat.eqb_eq in He. now subst.
  - intros H. exists t. split; [assumption|apply Nat.eqb_refl].
Qed.

Example connect_reaches_s_connected :
  exec (ensure_connected T_good MAIN_TASK) initial = s_connected.
Proof. reflexivity. Qed.

(** ** Disconnecting *)

(** C5, as the code has it: when a handle is recorded, [_disconnect_client]
    clears the handle and cancels the idle timer whether or not the transport
    disconnect fails, but a failure of the transport disconnect is not
    swallowed: it is raised to the caller.  The call returns normally exactly
    when the link was already down or the transport disconnect returned. *)
Theorem disconnect_client_clears_handle
        (T : Transport) (me : TaskId) (reason : string) (s : Session)
        (c : Client) :
  _client s = Some c ->
  let r := fst (_disconnect_client T me reason s) in
  let s' := snd (_disconnect_client T me reason s) in
  _client s' = None /\
  _idle_task s' = None /\
  (forall t, _idle_task s = Some t -> t <> me -> was_cancelled t s' = true) /\
  (forall e, link_up T (clock s) c = true ->
             disconnect_result T (clock s) c = Some e -> r = Raise e) /\
  (link_up T (clock s) c = false \/ disconnect_result T (clock s) c = None ->
   r = Ret tt).
Proof.
  intros Hc.
  destruct (disconnect_client_spec T me reason s)
    as (s' & Hrun & Hcl & Hid & _ & _ & _ & _ & _ & _ & Hcan & _).
  rewrite Hrun. simpl.
  unfold transport_disconnect_failure. rewrite Hc.
  repeat split; auto.
  - intros t Ht Hne. apply was_cancelled_In. eauto.
  - intros e Hup He. rewrite Hup, He. reflexivity.
  - intros [Hdown|Hok].
    + rewrite Hdown. reflexivity.
    + destruct (link_up T (clock s) c); [rewrite Hok|]; reflexivity.
Qed.

Lemma disconnect_client_clears_handle_witness :
  _client (snd (_disconnect_client T_disconnect_fails MAIN_TASK "" s_connected))
  = None /\
  _idle_task (snd (_disconnect_client T_disconnect_fails MAIN_TASK "" s_connected))
  = None.
Proof.
  assert (H : _client s_connected = Some melk_client) by reflexivity.
  pose proof (disconnect_client_clears_handle
                T_disconnect_fails MAIN_TASK "" s_connected melk_client H)
    as (H1 & H2 & _).
  split; [exact H1|exact H2].
Defined.

(** C5 as worded fails: with a handle recorded and the link up, a transport
    disconnect that raises makes [_disconnect_client], and the public
    [disconnect] around it, raise that same error to the caller. *)
Lemma disconnect_failure_is_surfaced :
  _client s_connected = Some melk_client /\
  fst (_disconnect_client T_disconnect_fails MAIN_TASK "" s_connected)
  = Raise (BleakError "disconnect failed") /\
  fst (disconnect T_disconnect_fails MAIN_TASK s_connected)
  = Raise (BleakError "disconnect failed") /\
  ~ (forall T me reason s c,
        _client s = Some c ->
        fst (_disconnect_client T me reason s) = Ret tt).
Proof.
  split; [reflexivity|]. split; [reflexivity|]. split; [reflexivity|].
  intros H.
  specialize (H T_disconnect_fails MAIN_TASK "" s_connected melk_client
                eq_refl).
  discriminate H.
Qed.

(** ** Relations kept by every step of the script *)

Section Guarantee.

Variable R : Session -> Session -> Prop.
Hypothesis R_stable : Stable R.

Lemma guar_ret {A} (a : A) : guar R (ret a).
Proof. intros s. apply (stable_refl R R_stable). Qed.

Lemma guar_raise {A} e : guar R (@raise A e).
Proof. intros s. apply (stable_refl R R_stable). Qed.

Lemma guar_get {A} (f : Session -> A) : guar R (get f).
Proof. intros s. apply (stable_refl R R_stable). Qed.

Lemma guar_lift {A} (o : Outcome A) : guar R (lift o).
Proof. intros s. apply (stable_refl R R_stable). Qed.

Lemma guar_modify (f : Session -> Session) :
  (forall s, R s (f s)) -> guar R (modify f).
Proof. intros H s. apply H. Qed.

Lemma guar_bind {A B} (m : M A) (f : A -> M B) :
  guar R m -> (forall a, guar R (f a)) -> guar R (bind m f).
Proof.
  intros Hm Hf s. unfold bind. specialize (Hm s).
  destruct (m s) as [[a|e] s1]; simpl in *; [|assumption].
  apply (stable_trans R R_stable _ s1); [assumption|apply Hf].
Qed.

Lemma guar_try_except {A} (m : M A) (h : Exn -> M A) :
  guar R m -> (forall e, guar R (h e)) -> guar R (try_except m h).
Proof.
  intros Hm Hh s. unfold try_except. specialize (Hm s).
  destruct (m s) as [[a|e] s1]; simpl in *; [assumption|].
  apply (stable_trans R R_stable _ s1); [assumption|apply Hh].
Qed.

Lemma guar_with_tx_lock {A} (m : M A) : guar R m -> guar R (with_tx_lock m).
Proof.
  intros Hm s. unfold with_tx_lock. specialize (Hm (log EvAcquire s)).
  destruct (m (log EvAcquire s)) as [r s1]; simpl in *.
  apply (stable_trans R R_stable _ (log EvAcquire s));
    [apply (stable_log R R_stable)|].
  apply (stable_trans R R_stable _ s1);
    [assumption|apply (stable_log R R_stable)].
Qed.

Lemma guar_log_tick {A} (r : Session -> Outcome A) (ev : Session -> Event) :
  guar R (fun s => (r s, log (ev s) (tick s))).
Proof.
  intros s. simpl.
  apply (stable_trans R R_stable _ (tick s));
    [apply (stable_tick R R_stable)|apply (stable_log R R_stable)].
Qed.

Variable T : Transport.
Variable me : TaskId.

(** The two steps that touch the timer token and the handle. *)
Hypothesis R_arm : guar R (_arm_idle_timer_locked T me).
Hypothesis R_disconnect : forall reason, guar R (_disconnect_client T me reason).
Hypothesis R_timeout : forall v s, R s (set_idle_timeout_s v s).

Lemma guar_client_is_connected c : guar R (client_is_connected T c).
Proof. intros s. apply (stable_refl R R_stable). Qed.

Lemma guar_client_write c payload : guar R (client_write T c payload).
Proof. apply guar_log_tick. Qed.

Lemma guar_print line : guar R (print line).
Proof. apply guar_modify. intros s. apply (stable_log R R_stable). Qed.

Lemma guar_sleep d : guar R (sleep d).
Proof.
  apply guar_modify. intros s.
  apply (stable_trans R R_stable _ (tick s));
    [apply (stable_tick R R_stable)|apply (stable_log R R_stable)].
Qed.

Lemma guar_resolve : guar R (resolve_device_address T).
Proof.
  unfold resolve_device_address.
  apply guar_bind; [apply guar_get|intros [d|]]; [apply guar_ret|].
  apply guar_bind; [apply guar_log_tick|intros ds].
  destruct (find (device_matches T) ds); [|apply guar_raise].
  apply guar_bind; [|intros _; apply guar_ret].
  apply guar_modify. apply (stable_resolved R R_stable).
Qed.

Lemma guar_connect_attempt : guar R (connect_attempt T me).
Proof.
  unfold connect_attempt.
  apply guar_bind; [apply guar_resolve|intros addr].
  apply guar_bind; [intros s; apply (stable_new_client R R_stable)|intros c].
  apply guar_bind; [apply guar_log_tick|intros _].
  apply guar_bind; [apply guar_client_is_connected|intros up].
  destruct (negb up); [apply guar_raise|].
  apply guar_bind; [apply R_arm|intros _; apply guar_ret].
Qed.

Lemma guar_connect_attempts attempts last_error :
  guar R (connect_attempts T me attempts last_error).
Proof.
  revert last_error.
  induction attempts as [|attempt rest IH]; intros last_error; simpl.
  - apply guar_raise.
  - apply guar_try_except; [apply guar_connect_attempt|intros e].
    apply guar_bind; [apply R_disconnect|intros _].
    apply guar_bind;
      [apply guar_modify; apply (stable_resolved R R_stable)|intros _].
    destruct (attempt =? 2)%nat; [apply guar_raise|apply IH].
Qed.

Lemma guar_ensure_connected : guar R (_ensure_connected T me).
Proof.
  unfold _ensure_connected.
  apply guar_bind; [apply guar_get|intros cl].
  apply guar_bind; [|intros live].
  { destruct cl as [c|]; [|apply guar_ret].
    apply guar_bind; [apply guar_client_is_connected|intros up; apply guar_ret]. }
  destruct live as [c|].
  - apply guar_bind; [apply R_arm|intros _; apply guar_ret].
  - apply guar_bind; [apply R_disconnect|intros _].
    apply guar_connect_attempts.
Qed.

Lemma guar_public_ensure_connected : guar R (ensure_connected T me).
Proof.
  apply guar_with_tx_lock, guar_bind;
    [apply guar_ensure_connected|intros _; apply guar_ret].
Qed.

Lemma guar_public_disconnect : guar R (disconnect T me).
Proof. apply guar_with_tx_lock, R_disconnect. Qed.

Lemma guar_reconnect : guar R (reconnect T me).
Proof.
  apply guar_with_tx_lock, guar_bind; [apply R_disconnect|intros _].
  apply guar_bind; [apply guar_ensure_connected|intros _; apply guar_ret].
Qed.

Lemma guar_connection_status : guar R (connection_status T).
Proof.
  apply guar_with_tx_lock, guar_bind; [apply guar_get|intros cl].
  apply guar_bind;
    [destruct cl; [apply guar_client_is_connected|apply guar_ret]|intros up].
  apply guar_bind; [apply guar_get|intros label].
  destruct up; apply guar_ret.
Qed.

Lemma guar_set_idle_timeout value : guar R (set_idle_timeout T me value).
Proof.
  apply guar_with_tx_lock, guar_bind;
    [apply guar_modify; apply R_timeout|intros _].
  apply guar_bind; [apply R_arm|intros _; apply guar_get].
Qed.

Lemma guar_send payload : guar R (send T me payload).
Proof.
  apply guar_with_tx_lock, guar_bind; [apply guar_ensure_connected|intros c].
  apply guar_bind.
  { apply guar_try_except; [apply guar_client_write|intros _].
    apply guar_bind; [apply R_disconnect|intros _].
    apply guar_bind; [apply guar_ensure_connected|intros c'].
    apply guar_client_write. }
  intros _. apply guar_bind.
  { destruct (float_is_zero POST_WRITE_DELAY_S); [apply guar_ret|apply guar_sleep]. }
  intros _. apply guar_bind; [apply R_arm|intros _; apply guar_print].
Qed.

Lemma guar_idle_worker timeout_s : guar R (_idle_disconnect_worker T me timeout_s).
Proof.
  unfold _idle_disconnect_worker.
  apply guar_bind.
  { intros s. unfold sleep_unless_cancelled.
    destruct (was_cancelled me s); simpl;
      [apply (stable_refl R R_stable)|].
    apply (stable_trans R R_stable _ (tick s));
      [apply (stable_tick R R_stable)|apply (stable_log R R_stable)]. }
  intros woke. destruct (negb woke); [apply guar_ret|].
  apply guar_with_tx_lock, guar_bind; [apply guar_get|intros cur].
  destruct (negb (is_task cur me)); [apply guar_ret|].
  apply guar_bind; [apply R_disconnect|intros _; apply guar_print].
Qed.

End Guarantee.

Section GuaranteeRuns.

Variable R : Session -> Session -> Prop.
Hypothesis R_stable : Stable R.
Variable T : Transport.
Hypothesis R_arm : forall me, guar R (_arm_idle_timer_locked T me).
Hypothesis R_disconnect :
  forall me reason, guar R (_disconnect_client T me reason).
Hypothesis R_timeout : forall v s, R s (set_idle_timeout_s v s).

Lemma guar_run_op (op : Op) (s : Session) : R s (run_op T op s).
Proof.
  destruct op; simpl; unfold exec.
  - apply guar_public_ensure_connected; auto.
  - apply guar_public_disconnect; auto.
  - apply guar_reconnect; auto.
  - apply guar_connection_status; auto.
  - apply guar_set_idle_timeout; auto.
  - apply guar_send; auto.
  - apply guar_idle_worker; auto.
  - apply (stable_tick R R_stable).
Qed.

Lemma guar_run_ops (ops : list Op) (s : Session) : R s (run_ops T ops s).
Proof.
  revert s. induction ops as [|op ops IH]; intros s; simpl.
  - apply (stable_refl R R_stable).
  - apply (stable_trans R R_stable _ (run_op T op s));
      [apply guar_run_op|apply IH].
Qed.

End GuaranteeRuns.

Lemma stable_keeps_timer_has_connection : Stable keeps_timer_has_connection.
Proof.
  unfold keeps_timer_has_connection, timer_has_connection.
  constructor; simpl; auto.
  intros c s _ _. discriminate.
Qed.

Lemma arm_keeps_timer_has_connection T me :
  guar keeps_timer_has_connection (_arm_idle_timer_locked T me).
Proof.
  intros s _.
  destruct (arm_spec T me s)
    as (s' & Hrun & (Hc & _) & Harmed & _).
  rewrite Hrun. simpl. unfold timer_has_connection. intros Hi.
  apply Harmed in Hi. destruct Hi as [(c & Hcl & _) _].
  rewrite Hc, Hcl. discriminate.
Qed.

Lemma disconnect_keeps_timer_has_connection T me reason :
  guar keeps_timer_has_connection (_disconnect_client T me reason).
Proof.
  intros s _.
  destruct (disconnect_client_spec T me reason s) as (s' & Hrun & _ & Hi & _).
  rewrite Hrun. simpl. unfold timer_has_connection. congruence.
Qed.

Lemma stable_fresh_tokens : Stable fresh_tokens.
Proof.
  unfold fresh_tokens.
  constructor; simpl; auto.
  intros s1 s2 s3 [Hn1 Hi1] [Hn2 Hi2]. split; [lia|].
  intros t Ht. destruct (Hi2 t Ht) as [H|H].
  - destruct (Hi1 t H) as [H'|H']; [now left|right; lia].
  - right; lia.
Qed.

Lemma arm_fresh_tokens T me : guar fresh_tokens (_arm_idle_timer_locked T me).
Proof.
  intros s.
  destruct (arm_spec T me s) as (s' & Hrun & _ & _ & Hnew & Hle & _).
  rewrite Hrun. simpl. split; [assumption|].
  intros t Ht. destruct (Hnew t Ht) as [-> ->]. right; lia.
Qed.

Lemma disconnect_fresh_tokens T me reason :
  guar fresh_tokens (_disconnect_client T me reason).
Proof.
  intros s.
  destruct (disconnect_client_spec T me reason s)
    as (s' & Hrun & _ & Hi & _ & _ & _ & Hnt & _).
  rewrite Hrun. simpl. split; [lia|].
  intros t Ht. congruence.
Qed.

Lemma timeout_fresh_tokens v s : fresh_tokens s (set_idle_timeout_s v s).
Proof. split; simpl; auto. Qed.

Lemma timeout_keeps_timer_has_connection v s :
  keeps_timer_has_connection s (set_idle_timeout_s v s).
Proof. unfold keeps_timer_has_connection, timer_has_connection; simpl; auto. Qed.

(** ** The invariant: an armed timer has a connection *)

(** C10: every public operation and the idle worker keep the invariant that
    an armed idle timer (a recorded timer token) has a recorded connection
    handle; it holds at the start, so it holds whenever the lock is released,
    after any sequence of operations. *)
Theorem armed_timer_has_connection (T : Transport) :
  timer_has_connection initial /\
  (forall me s,
      timer_has_connection s ->
      timer_has_connection (exec (ensure_connected T me) s) /\
      timer_has_connection (exec (disconnect T me) s) /\
      timer_has_connection (exec (reconnect T me) s) /\
      (forall value, timer_has_connection (exec (set_idle_timeout T me value) s)) /\
      (forall payload, timer_has_connection (exec (send T me payload) s)) /\
      (forall timeout_s,
          timer_has_connection (exec (_idle_disconnect_worker T me timeout_s) s))) /\
  (forall ops, timer_has_connection (run_ops T ops initial)).
Proof.
  assert (Hinit : timer_has_connection initial).
  { unfold timer_has_connection, initial; simpl. congruence. }
  split; [exact Hinit|]. split.
  - intros me s Hs. unfold exec.
    pose proof stable_keeps_timer_has_connection as St.
    pose proof (arm_keeps_timer_has_connection T me) as Ha.
    pose proof (disconnect_keeps_timer_has_connection T me) as Hd.
    pose proof timeout_keeps_timer_has_connection as Ht.
    split; [apply (guar_public_ensure_connected _ St T me Ha Hd s Hs)|].
    split; [apply (guar_public_disconnect _ St T me Hd s Hs)|].
    split; [apply (guar_reconnect _ St T me Ha Hd s Hs)|].
    split; [intros v; apply (guar_set_idle_timeout _ St T me Ha Ht v s Hs)|].
    split; [intros payload; apply (guar_send _ St T me Ha Hd payload s Hs)|].
    intros q. apply (guar_idle_worker _ St T me Hd q s Hs).
  - intros ops.
    apply (guar_run_ops keeps_timer_has_connection
             stable_keeps_timer_has_connection T
             (arm_keeps_timer_has_connection T)
             (disconnect_keeps_timer_has_connection T)
             timeout_keeps_timer_has_connection ops initial Hinit).
Qed.

Lemma armed_timer_has_connection_witness :
  timer_has_connection s_connected /\
  timer_has_connection (exec (disconnect T_disconnect_fails MAIN_TASK) s_connected).
Proof.
  assert (H : timer_has_connection s_connected).
  { unfold timer_has_connection. simpl. discriminate. }
  split; [exact H|].
  destruct (armed_timer_has_connection T_disconnect_fails) as (_ & Hops & _).
  destruct (Hops MAIN_TASK s_connected H) as (_ & Hd & _).
  exact Hd.
Defined.

(** ** The timer token *)

Lemma stale_worker_exits (T : Transport) (w : TaskId) (timeout_s : PyFloat)
      (s : Session) :
  _idle_task s <> Some w -> worker_exits_silently T w timeout_s s.
Proof.
  intros Hne.
  unfold worker_exits_silently, _idle_disconnect_worker, bind,
    sleep_unless_cancelled.
  destruct (was_cancelled w s); simpl; [auto|].
  unfold with_tx_lock, bind, get. simpl.
  assert (Hcur : is_task (_idle_task s) w = false).
  { unfold is_task. destruct (_idle_task s) as [t|]; [|reflexivity].
    apply Nat.eqb_neq. congruence. }
  rewrite Hcur. simpl. auto.
Qed.

(** C3: arming the idle timer twice in a row from a connected session leaves
    one token recorded, the second, and the first one cancelled; and whenever
    a worker wakes to find that the recorded token is not its own, it exits
    under the lock without disconnecting.  Tokens are never reused, so after
    any further operations the first timer still exits that way. *)
Theorem superseded_timer_never_disconnects
        (T : Transport) (me : TaskId) (s : Session) (c : Client) :
  (me < next_task s)%nat ->
  (forall t, In t (cancelled s) -> (t < next_task s)%nat) ->
  (forall t, _idle_task s = Some t -> (t < next_task s)%nat) ->
  _client s = Some c ->
  link_up T (clock s) c = true ->
  timeout_enabled s ->
  let s1 := exec (_arm_idle_timer_locked T me) s in
  let s2 := exec (_arm_idle_timer_locked T me) s1 in
  exists t1 t2,
    _idle_task s1 = Some t1 /\
    _idle_task s2 = Some t2 /\
    t1 <> t2 /\
    was_cancelled t1 s2 = true /\
    was_cancelled t2 s2 = false /\
    (forall w timeout_s s3,
        _idle_task s3 <> Some w -> worker_exits_silently T w timeout_s s3) /\
    (forall ops timeout_s,
        _idle_task (run_ops T ops s2) <> Some t1 /\
        worker_exits_silently T t1 timeout_s (run_ops T ops s2)).
Proof.
  intros Hme Hcan Hidle Hc Hup Hen s1 s2. subst s1 s2. unfold exec.
  destruct (arm_spec T me s)
    as (s1 & Hrun1 & (Hc1 & _ & Ht1 & Hk1 & _) & Harmed1 & Hnew1 & _ & _ & Hcan1).
  rewrite Hrun1. simpl.
  destruct (arm_spec T me s1)
    as (s2 & Hrun2 & _ & Harmed2 & Hnew2 & _ & Hin2 & Hcan2).
  rewrite Hrun2. simpl.
  assert (Hl : live T s) by (exists c; auto).
  assert (Ha1 : armed s1) by (apply Harmed1; auto).
  assert (Ha2 : armed s2).
  { apply Harmed2. split.
    - exists c. rewrite Hc1, Hk1. auto.
    - destruct Hen as (v & Hv & Hpos). exists v. rewrite Ht1. auto. }
  unfold armed in Ha1, Ha2.
  destruct (_idle_task s1) as [t1|] eqn:E1; [|congruence].
  destruct (_idle_task s2) as [t2|] eqn:E2; [|congruence].
  destruct (Hnew1 t1 eq_refl) as [Et1 Hn1].
  destruct (Hnew2 t2 eq_refl) as [Et2 Hn2].
  assert (Hne : t1 <> t2) by lia.
  assert (Hstale : forall ops, _idle_task (run_ops T ops s2) <> Some t1).
  { intros ops.
    pose proof (guar_run_ops fresh_tokens stable_fresh_tokens T
                  (arm_fresh_tokens T) (disconnect_fresh_tokens T)
                  timeout_fresh_tokens ops s2) as [Hle Hfresh].
    intros Heq. destruct (Hfresh t1 Heq) as [H|H]; [congruence|lia]. }
  exists t1, t2.
  split; [reflexivity|]. split; [reflexivity|]. split; [exact Hne|].
  split; [|split; [|split]].
  - apply was_cancelled_In. apply (Hin2 t1 eq_refl). lia.
  - destruct (was_cancelled t2 s2) eqn:Ew; [|reflexivity].
    apply was_cancelled_In in Ew.
    destruct (Hcan2 t2 Ew) as [Hin|[Heq _]]; [|congruence].
    destruct (Hcan1 t2 Hin) as [Hin'|[Heq _]].
    + specialize (Hcan t2 Hin'). lia.
    + specialize (Hidle t2 Heq). lia.
  - intros w timeout_s s3. apply stale_worker_exits.
  - intros ops timeout_s. split; [apply Hstale|].
    apply stale_worker_exits, Hstale.
Qed.

Lemma superseded_timer_never_disconnects_witness :
  exists t1 t2,
    _idle_task (exec (_arm_idle_timer_locked T_good MAIN_TASK) s_connected)
    = Some t1 /\
    _idle_task (exec (_arm_idle_timer_locked T_good MAIN_TASK)
                     (exec (_arm_idle_timer_locked T_good MAIN_TASK) s_connected))
    = Some t2 /\
    t1 <> t2.
Proof.
  destruct (superseded_timer_never_disconnects
              T_good MAIN_TASK s_connected melk_client)
    as (t1 & t2 & H1 & H2 & Hne & _).
  - unfold MAIN_TASK; simpl; lia.
  - simpl; intros t [].
  - simpl; intros t Ht; inversion Ht; lia.
  - reflexivity.
  - reflexivity.
  - exists DEFAULT_IDLE_TIMEOUT_S. split; reflexivity.
  - exists t1, t2. auto.
Defined.

Example arm_twice_tokens :
  let s2 := exec (_arm_idle_timer_locked T_good MAIN_TASK)
                 (exec (_arm_idle_timer_locked T_good MAIN_TASK) s_connected) in
  _idle_task s2 = Some 3%nat /\ cancelled s2 = [2; 1]%nat.
Proof. split; reflexivity. Qed.

(** ** The idle timeout: its label and the re-arming after a send *)

Lemma set_idle_timeout_spec (T : Transport) (me : TaskId) (value : option PyFloat)
      (s : Session) :
  exists s',
    set_idle_timeout T me value s
    = (Ret (match value with
            | None => "off"
            | Some v => format_1f v ++ "s"
            end), s') /\
    _idle_timeout_s s' = value.
Proof.
  unfold set_idle_timeout, with_tx_lock, bind, modify.
  destruct (arm_spec T me (set_idle_timeout_s value (log EvAcquire s)))
    as (s1 & Hrun & (_ & _ & Ht & _) & _).
  rewrite Hrun. unfold get, _idle_timeout_label. rewrite Ht. simpl.
  eexists. split; [reflexivity|]. simpl. exact Ht.
Qed.

Lemma connection_status_spec (T : Transport) (s : Session) :
  fst (connection_status T s)
  = Ret ("connected (idle timeout: " ++ _idle_timeout_label s ++ ")") \/
  fst (connection_status T s)
  = Ret ("disconnected (idle timeout: " ++ _idle_timeout_label s ++ ")").
Proof.
  unfold connection_status, with_tx_lock, bind, get, client_is_connected, ret.
  simpl.
  destruct (_client s) as [c|]; simpl.
  - destruct (link_up T (clock s) c); simpl; [left|right]; reflexivity.
  - right; reflexivity.
Qed.

(** C7: [set_idle_timeout(5.0)] answers the label "5.0s" and a [status()]
    after it reports "(idle timeout: 5.0s)"; [set_idle_timeout(None)] answers
    "off" and the status after it reports "(idle timeout: off)". *)
Theorem idle_timeout_label_roundtrip (T : Transport) (me : TaskId) (s : Session) :
  let s5 := exec (set_idle_timeout T me (Some (Finite 5))) s in
  let soff := exec (set_idle_timeout T me None) s in
  fst (set_idle_timeout T me (Some (Finite 5)) s) = Ret "5.0s" /\
  (fst (connection_status T s5) = Ret "connected (idle timeout: 5.0s)" \/
   fst (connection_status T s5) = Ret "disconnected (idle timeout: 5.0s)") /\
  fst (set_idle_timeout T me None s) = Ret "off" /\
  (fst (connection_status T soff) = Ret "connected (idle timeout: off)" \/
   fst (connection_status T soff) = Ret "disconnected (idle timeout: off)").
Proof.
  intros s5 soff. subst s5 soff. unfold exec.
  destruct (set_idle_timeout_spec T me (Some (Finite 5)) s) as (s5 & Hrun5 & Ht5).
  destruct (set_idle_timeout_spec T me None s) as (soff & Hrunoff & Htoff).
  rewrite Hrun5, Hrunoff. simpl fst. simpl snd.
  split; [reflexivity|]. split; [|split; [reflexivity|]].
  - pose proof (connection_status_spec T s5) as H.
    unfold _idle_timeout_label in H. rewrite Ht5 in H. exact H.
  - pose proof (connection_status_spec T soff) as H.
    unfold _idle_timeout_label in H. rewrite Htoff in H. exact H.
Qed.

Example idle_roundtrip_connected :
  fst (connection_status T_good
         (exec (set_idle_timeout T_good MAIN_TASK (Some (Finite 5))) s_connected))
  = Ret "connected (idle timeout: 5.0s)".
Proof. reflexivity. Qed.

(** The test [timeout <= 0] fails for the numbers greater than 0 and for
    NaN, and for nothing else. *)
Lemma float_le_zero_false (v : PyFloat) :
  float_le_zero v = false <-> float_gt_zero v = true \/ v = NaN.
Proof.
  destruct v as [q| | | |]; simpl.
  - destruct (Qle_bool q 0); simpl; split;
      [discriminate|intros [H|H]; discriminate|auto|reflexivity].
  - split; [discriminate|intros [H|H]; discriminate].
  - split; [auto|reflexivity].
  - split; [discriminate|intros [H|H]; discriminate].
  - split; [auto|reflexivity].
Qed.

Lemma timeout_enabled_iff (s : Session) :
  timeout_enabled s <-> timeout_positive s \/ _idle_timeout_s s = Some NaN.
Proof.
  unfold timeout_enabled, timeout_positive. split.
  - intros (v & Hv & Hle). apply float_le_zero_false in Hle.
    destruct Hle as [Hgt| ->]; [left; eauto|right; exact Hv].
  - intros [(v & Hv & Hgt)|Hnan].
    + exists v. split; [exact Hv|]. apply float_le_zero_false. now left.
    + exists NaN. split; [exact Hnan|reflexivity].
Qed.

(** C6, as the code has it: when [send] completes, the idle timer is armed
    if and only if the link of the recorded client is still up at that moment
    and the idle timeout is not disabled and fails the test [timeout <= 0]
    of [_arm_idle_timer_locked]: it is a number greater than 0, or NaN. *)
Theorem send_rearms_idle_timer
        (T : Transport) (me : TaskId) (payload : list Z) (s s' : Session) :
  send T me payload s = (Ret tt, s') ->
  (armed s' <->
   live T s' /\ (timeout_positive s' \/ _idle_timeout_s s' = Some NaN)).
Proof.
  rewrite <- timeout_enabled_iff.
  unfold send, with_tx_lock.
  set (s0 := log EvAcquire s).
  unfold bind at 1.
  destruct (_ensure_connected T me s0) as [[client|e] s1];
    [|intros H; inversion H].
  unfold bind at 1.
  destruct (try_except (client_write T client payload)
              (fun _ => _disconnect_client T me "";;
                        client0 <- _ensure_connected T me;;
                        client_write T client0 payload) s1) as [[[]|e] s2];
    [|intros H; inversion H].
  unfold bind at 1.
  change (float_is_zero POST_WRITE_DELAY_S) with false. cbv iota.
  unfold sleep at 1, modify at 1.
  set (s3 := log (EvSleep POST_WRITE_DELAY_S) (tick s2)).
  unfold bind at 1.
  destruct (arm_spec T me s3)
    as (s4 & Hrun & (Hc & _ & Ht & Hk & _) & Harmed & _).
  rewrite Hrun. unfold print, modify. intros H. inversion H; subst s'.
  unfold armed, live, timeout_enabled in *. simpl.
  rewrite Hc, Ht, Hk. exact Harmed.
Qed.

Lemma send_rearms_idle_timer_witness :
  armed (exec (send T_good MAIN_TASK (pkt_power true)) initial) <->
  live T_good (exec (send T_good MAIN_TASK (pkt_power true)) initial) /\
  (timeout_positive (exec (send T_good MAIN_TASK (pkt_power true)) initial) \/
   _idle_timeout_s (exec (send T_good MAIN_TASK (pkt_power true)) initial)
   = Some NaN).
Proof.
  apply (send_rearms_idle_timer T_good MAIN_TASK (pkt_power true) initial).
  vm_compute. reflexivity.
Defined.

(** C6 as worded fails in both directions.  With the default timeout of
    300 s a [send] completes and leaves no timer armed, because the link
    dropped during the post-write delay.  With the timeout NaN, which is not
    greater than 0, a [send] completes and leaves a timer armed. *)
Lemma send_with_dropped_link_leaves_timer_unarmed :
  let s' := exec (send T_link_drops MAIN_TASK (pkt_power true)) initial in
  let s'' := exec (send T_good MAIN_TASK (pkt_power true)) s_nan in
  (fst (send T_link_drops MAIN_TASK (pkt_power true) initial) = Ret tt /\
   _idle_timeout_s s' = Some DEFAULT_IDLE_TIMEOUT_S /\
   timeout_positive s' /\
   _idle_task s' = None) /\
  (fst (send T_good MAIN_TASK (pkt_power true) s_nan) = Ret tt /\
   _idle_timeout_s s'' = Some NaN /\
   ~ timeout_positive s'' /\
   _idle_task s'' = Some 2%nat /\
   In (EvCreateTask 2%nat NaN) (trace s'')) /\
  ~ (forall T me payload s s',
        send T me payload s = (Ret tt, s') ->
        (armed s' -> timeout_positive s')) /\
  ~ (forall T me payload s s',
        send T me payload s = (Ret tt, s') ->
        (timeout_positive s' -> armed s')).
Proof.
  set (s' := exec (send T_link_drops MAIN_TASK (pkt_power true)) initial).
  set (s'' := exec (send T_good MAIN_TASK (pkt_power true)) s_nan).
  assert (Hrun : send T_link_drops MAIN_TASK (pkt_power true) initial
                 = (Ret tt, s')) by (vm_compute; reflexivity).
  assert (Ht : _idle_timeout_s s' = Some DEFAULT_IDLE_TIMEOUT_S)
    by (vm_compute; reflexivity).
  assert (Hi : _idle_task s' = None) by (vm_compute; reflexivity).
  assert (He : timeout_positive s').
  { exists DEFAULT_IDLE_TIMEOUT_S. split; [exact Ht|reflexivity]. }
  assert (Hrun' : send T_good MAIN_TASK (pkt_power true) s_nan
                  = (Ret tt, s'')) by (vm_compute; reflexivity).
  assert (Ht' : _idle_timeout_s s'' = Some NaN) by (vm_compute; reflexivity).
  assert (Hi' : _idle_task s'' = Some 2%nat) by (vm_compute; reflexivity).
  assert (Hev : In (EvCreateTask 2%nat NaN) (trace s''))
    by (vm_compute; tauto).
  assert (He' : ~ timeout_positive s'').
  { intros (v & Hv & Hgt). rewrite Ht' in Hv. inversion Hv; subst v.
    discriminate Hgt. }
  cbv zeta.
  split; [|split; [|split]].
  - split; [rewrite Hrun; reflexivity|]. auto.
  - split; [rewrite Hrun'; reflexivity|]. auto.
  - intros H. apply He'. apply (H _ _ _ _ _ Hrun').
    unfold armed. rewrite Hi'. discriminate.
  - intros H. apply (H _ _ _ _ _ Hrun He). exact Hi.
Qed.

(** ** Strings: what [in] computes *)

Lemma prefix_spec (t s : string) :
  prefix t s = true <-> exists post, s = t ++ post.
Proof.
  revert s. induction t as [|x t IH]; intros s.
  - destruct s; simpl; split; eauto.
  - destruct s as [|y s]; simpl.
    + split; [discriminate|intros (post & H); discriminate].
    + destruct (ascii_dec x y) as [->|Hne].
      * rewrite IH. split; intros (post & H); exists post.
        -- now rewrite H.
        -- now inversion H.
      * split; [discriminate|].
        intros (post & H). inversion H. congruence.
Qed.

Lemma str_in_spec (t s : string) :
  str_in t s = true <-> exists pre post, s = pre ++ t ++ post.
Proof.
  induction s as [|y s IH].
  - change (str_in t "") with (if prefix t "" then true else false).
    destruct (prefix t "") eqn:Ep.
    + split; [intros _|reflexivity].
      apply prefix_spec in Ep. destruct Ep as (post & H).
      exists "", post. exact H.
    + split; [discriminate|]. intros (pre & post & H).
      assert (Hp : prefix t "" = true).
      { apply prefix_spec. destruct pre; [|discriminate].
        exists post. exact H. }
      congruence.
  - change (str_in t (String y s))
      with (if prefix t (String y s) then true else str_in t s).
    destruct (prefix t (String y s)) eqn:Ep.
    + split; [intros _|reflexivity].
      apply prefix_spec in Ep. destruct Ep as (post & H).
      exists "", post. exact H.
    + rewrite IH. split.
      * intros (pre & post & H). exists (String y pre), post.
        simpl. now rewrite H.
      * intros (pre & post & H). destruct pre as [|z pre].
        -- assert (Hp : prefix t (String y s) = true)
             by (apply prefix_spec; exists post; exact H).
           congruence.
        -- inversion H. eauto.
Qed.

(** The test of the scan loop is the containment the specification words. *)
Lemma device_matches_spec (T : Transport) (d : BLEDevice) :
  device_matches T d = true <-> name_matches T d.
Proof.
  unfold device_matches, name_matches, ci_contains, advertised_name.
  rewrite existsb_exists. split.
  - intros (target & Hin & H). exists target. split; [exact Hin|].
    now apply str_in_spec.
  - intros (target & Hin & H). exists target. split; [exact Hin|].
    now apply str_in_spec.
Qed.

Lemma device_matches_false (T : Transport) (d : BLEDevice) :
  device_matches T d = false <-> ~ name_matches T d.
Proof.
  rewrite <- device_matches_spec.
  destruct (device_matches T d); split; congruence.
Qed.

Lemma find_first {A} (f : A -> bool) (pre : list A) (d : A) (post : list A) :
  (forall x, In x pre -> f x = false) -> f d = true ->
  find f (pre ++ d :: post) = Some d.
Proof.
  intros Hpre Hd. induction pre as [|y pre IH]; simpl.
  - now rewrite Hd.
  - rewrite (Hpre y (or_introl eq_refl)). apply IH.
    intros x Hx. apply Hpre. now right.
Qed.

Lemma find_nothing {A} (f : A -> bool) (l : list A) :
  (forall x, In x l -> f x = false) -> find f l = None.
Proof.
  intros H. induction l as [|y l IH]; simpl; [reflexivity|].
  rewrite (H y (or_introl eq_refl)). apply IH.
  intros x Hx. apply H. now right.
Qed.

Lemma resolve_not_found (T : Transport) (s : Session) (ds : list BLEDevice) :
  _resolved_device s = None ->
  scan_result T (clock s) = inr ds ->
  (forall d, In d ds -> ~ name_matches T d) ->
  resolve_device_address T s
  = (Raise NotFoundError, log (EvScan SCAN_TIMEOUT_S (inr ds)) (tick s)).
Proof.
  intros Hnone Hscan Hall.
  unfold resolve_device_address, bind, get, BleakScanner_discover.
  rewrite Hnone, Hscan. rewrite (find_nothing (device_matches T) ds).
  - reflexivity.
  - intros x Hx. apply device_matches_false. auto.
Qed.

(** C9: with a cached device the resolver returns its address and does
    nothing else (no scan).  Without one it scans once, for
    [SCAN_TIMEOUT_S]; it returns the address of the first discovered
    peripheral whose name contains a target name ignoring case, and caches
    that peripheral: [_resolved_device] holds it afterwards, nothing else of
    the session changes but the clock and the trace, which gains the one
    scan, and a second call answers from the cache without scanning.  When
    no discovered peripheral matches it raises [NotFoundError] and the cache
    stays empty.  A name contains a target ignoring case as the script
    tests it: the lower-cased target occurs in the lower-cased stripped
    name, both lower-cased by [str.lower]. *)
Theorem resolve_device_address_spec (T : Transport) (s : Session) :
  (forall d, _resolved_device s = Some d ->
             resolve_device_address T s = (Ret (address d), s)) /\
  (_resolved_device s = None ->
   forall ds, scan_result T (clock s) = inr ds ->
     let scanned := log (EvScan SCAN_TIMEOUT_S (inr ds)) (tick s) in
     (forall pre d post,
         ds = (pre ++ d :: post)%list ->
         (forall x, In x pre -> ~ name_matches T x) ->
         name_matches T d ->
         let s' := snd (resolve_device_address T s) in
         resolve_device_address T s
         = (Ret (address d), set_resolved_device (Some d) scanned) /\
         _resolved_device s' = Some d /\
         _client s' = _client s /\
         _idle_timeout_s s' = _idle_timeout_s s /\
         _idle_task s' = _idle_task s /\
         clock s' = S (clock s) /\
         trace s' = (trace s ++ [EvScan SCAN_TIMEOUT_S (inr ds)])%list /\
         resolve_device_address T s' = (Ret (address d), s')) /\
     ((forall x, In x ds -> ~ name_matches T x) ->
      let s' := snd (resolve_device_address T s) in
      resolve_device_address T s = (Raise NotFoundError, scanned) /\
      _resolved_device s' = None /\
      trace s' = (trace s ++ [EvScan SCAN_TIMEOUT_S (inr ds)])%list)).
Proof.
  split.
  - intros d Hd. unfold resolve_device_address, bind, get. rewrite Hd.
    reflexivity.
  - intros Hnone ds Hscan scanned. subst scanned. split.
    + intros pre d post -> Hpre Hd s'.
      assert (Hrun : resolve_device_address T s
                     = (Ret (address d),
                        set_resolved_device (Some d)
                          (log (EvScan SCAN_TIMEOUT_S (inr (pre ++ d :: post)%list))
                               (tick s)))).
      { unfold resolve_device_address, bind, get, BleakScanner_discover.
        rewrite Hnone, Hscan.
        rewrite (find_first (device_matches T) pre d post).
        - reflexivity.
        - intros x Hx. apply device_matches_false. auto.
        - now apply device_matches_spec. }
      subst s'. rewrite Hrun.
      repeat match goal with |- _ /\ _ => split end; try reflexivity.
    + intros Hall s'. subst s'.
      rewrite (resolve_not_found T s ds Hnone Hscan Hall).
      repeat match goal with |- _ /\ _ => split end; try reflexivity.
      exact Hnone.
Qed.

Lemma melk_device_matches : name_matches T_good melk_device.
Proof. apply device_matches_spec. reflexivity. Qed.

Lemma other_device_does_not_match : ~ name_matches T_other_only other_device.
Proof. apply device_matches_false. reflexivity. Qed.

Lemma resolve_device_address_spec_witness :
  resolve_device_address T_good s_connected
  = (Ret "BE:16:A5:00:12:34", s_connected) /\
  fst (resolve_device_address T_good initial) = Ret "BE:16:A5:00:12:34" /\
  _resolved_device (snd (resolve_device_address T_good initial))
  = Some melk_device /\
  fst (resolve_device_address T_other_only initial) = Raise NotFoundError /\
  _resolved_device (snd (resolve_device_address T_other_only initial)) = None.
Proof.
  destruct (proj2 (resolve_device_address_spec T_good initial) eq_refl
                  [melk_device] eq_refl) as [Hfound _].
  destruct (Hfound [] melk_device [] eq_refl (fun x (H : In x []) => match H with end)
                   melk_device_matches) as (Hrun & Hcache & _).
  destruct (proj2 (resolve_device_address_spec T_other_only initial) eq_refl
                  [other_device] eq_refl) as [_ Hnone].
  assert (Hno : forall x, In x [other_device] -> ~ name_matches T_other_only x).
  { intros x [<-|[]]. exact other_device_does_not_match. }
  destruct (Hnone Hno) as (Hraise & Hstill & _).
  split; [|split; [|split; [|split]]].
  - apply (proj1 (resolve_device_address_spec T_good s_connected) melk_device).
    reflexivity.
  - rewrite Hrun. reflexivity.
  - exact Hcache.
  - rewrite Hraise. reflexivity.
  - exact Hstill.
Defined.

(** ** Establishing the connection *)

Lemma not_live_no_disconnect_failure (T : Transport) (s : Session) :
  ~ live T s -> transport_disconnect_failure T s = None.
Proof.
  intros Hnl. unfold transport_disconnect_failure.
  destruct (_client s) as [c|] eqn:Ec; [|reflexivity].
  destruct (link_up T (clock s) c) eqn:Eup; [|reflexivity].
  exfalso. apply Hnl. exists c. auto.
Qed.

(** With no live connection, [_ensure_connected] is the clean-up followed
    by the two attempts. *)
Lemma ensure_connected_not_live (T : Transport) (me : TaskId) (s : Session) :
  ~ live T s ->
  _ensure_connected T me s
  = (_disconnect_client T me "";; connect_attempts T me [1; 2]%nat None) s.
Proof.
  intros Hnl. unfold _ensure_connected.
  unfold bind at 1, get at 1. unfold bind at 1.
  destruct (_client s) as [c|] eqn:Ec.
  - unfold bind at 1, client_is_connected at 1.
    destruct (link_up T (clock s) c) eqn:Eup; [|reflexivity].
    exfalso. apply Hnl. exists c. auto.
  - reflexivity.
Qed.

(** With a live connection it only re-arms the timer. *)
Lemma ensure_connected_live (T : Transport) (me : TaskId) (s : Session)
      (c : Client) :
  _client s = Some c -> link_up T (clock s) c = true ->
  _ensure_connected T me s = (_arm_idle_timer_locked T me;; ret c) s.
Proof.
  intros Hc Hup. unfold _ensure_connected.
  unfold bind at 1, get at 1. unfold bind at 1. rewrite Hc.
  unfold bind at 1, client_is_connected at 1. rewrite Hup. reflexivity.
Qed.

Lemma connect_attempt_not_found (T : Transport) (me : TaskId) (s : Session)
      (ds : list BLEDevice) :
  _resolved_device s = None ->
  scan_result T (clock s) = inr ds ->
  (forall d, In d ds -> ~ name_matches T d) ->
  connect_attempt T me s
  = (Raise NotFoundError, log (EvScan SCAN_TIMEOUT_S (inr ds)) (tick s)).
Proof.
  intros Hnone Hscan Hall. unfold connect_attempt.
  apply bind_raise_eq. apply resolve_not_found; assumption.
Qed.

(** The two attempts of [_ensure_connected], spelled out. *)
Lemma connect_attempts_two (T : Transport) (me : TaskId) (s0 : Session) :
  connect_attempts T me [1; 2]%nat None s0 =
  match connect_attempt T me s0 with
  | (Ret c, s1) => (Ret c, s1)
  | (Raise e1, s1) =>
      match _disconnect_client T me "" s1 with
      | (Raise d, s2) => (Raise d, s2)
      | (Ret _, s2) =>
          match connect_attempt T me (set_resolved_device None s2) with
          | (Ret c, s3) => (Ret c, s3)
          | (Raise e2, s3) =>
              match _disconnect_client T me "" s3 with
              | (Raise d, s4) => (Raise d, s4)
              | (Ret _, s4) =>
                  (Raise (ConnectError e2), set_resolved_device None s4)
              end
          end
      end
  end.
Proof.
  simpl connect_attempts. unfold try_except at 1.
  destruct (connect_attempt T me s0) as [[c|e1] s1]; [reflexivity|].
  unfold bind at 1.
  destruct (_disconnect_client T me "" s1) as [[[]|d] s2]; [|reflexivity].
  unfold bind at 1, modify at 1. simpl Nat.eqb. cbv iota.
  unfold try_except at 1.
  destruct (connect_attempt T me (set_resolved_device None s2))
    as [[c|e2] s3]; [reflexivity|].
  unfold bind at 1.
  destruct (_disconnect_client T me "" s3) as [[[]|d] s4]; reflexivity.
Qed.

(** C4, as the code has it: with no live connection and no cached device,
    when the scans discover only peripherals whose names match no target
    name, the connection is not established: [NotFoundError] is caught as
    the failure of the first attempt, the scan is repeated, and
    [ensure_connected] raises [ConnectError] carrying [NotFoundError] as its
    last cause.  No connect is attempted. *)
Theorem ensure_connected_no_matching_device
        (T : Transport) (me : TaskId) (s : Session) (ds1 ds2 : list BLEDevice) :
  ~ live T s ->
  _resolved_device s = None ->
  scan_result T (clock s) = inr ds1 ->
  scan_result T (S (clock s)) = inr ds2 ->
  (forall d, In d ds1 -> ~ name_matches T d) ->
  (forall d, In d ds2 -> ~ name_matches T d) ->
  fst (ensure_connected T me s) = Raise (ConnectError NotFoundError) /\
  fst (_ensure_connected T me s) = Raise (ConnectError NotFoundError) /\
  trace (snd (_ensure_connected T me s))
  = (trace (exec (_disconnect_client T me "") s)
       ++ [EvScan SCAN_TIMEOUT_S (inr ds1); EvScan SCAN_TIMEOUT_S (inr ds2)])%list /\
  _client (snd (_ensure_connected T me s)) = None.
Proof.
  intros Hnl Hnone Hs1 Hs2 Hd1 Hd2.
  assert (Hcore : forall s0,
    ~ live T s0 -> _resolved_device s0 = None ->
    scan_result T (clock s0) = inr ds1 ->
    scan_result T (S (clock s0)) = inr ds2 ->
    exists sd,
      _disconnect_client T me "" s0 = (Ret tt, sd) /\
      _client sd = None /\
      _ensure_connected T me s0
      = (Raise (ConnectError NotFoundError),
         set_resolved_device None
           (log (EvScan SCAN_TIMEOUT_S (inr ds2))
              (tick (set_resolved_device None
                       (log (EvScan SCAN_TIMEOUT_S (inr ds1)) (tick sd))))))).
  { clear Hnl Hnone Hs1 Hs2. intros s0 Hnl Hnone Hs1 Hs2.
    destruct (disconnect_client_spec T me "" s0)
      as (sd & Hrun & Hc0 & Hi0 & Hr0 & _ & _ & _ & _ & Hk0 & _).
    rewrite (not_live_no_disconnect_failure T s0 Hnl) in Hrun.
    simpl of_option in Hrun.
    specialize (Hk0 Hnl). rewrite Hnone in Hr0.
    exists sd. split; [exact Hrun|]. split; [exact Hc0|].
    rewrite (ensure_connected_not_live T me s0 Hnl). unfold bind at 1.
    rewrite Hrun. cbv beta iota.
    rewrite connect_attempts_two.
    rewrite (connect_attempt_not_found T me sd ds1 Hr0);
      [|rewrite Hk0; exact Hs1|assumption].
    rewrite (disconnect_client_idle T me ""
               (log (EvScan SCAN_TIMEOUT_S (inr ds1)) (tick sd)) Hc0 Hi0).
    rewrite (connect_attempt_not_found T me
               (set_resolved_device None
                  (log (EvScan SCAN_TIMEOUT_S (inr ds1)) (tick sd)))
               ds2 eq_refl);
      [|simpl; rewrite Hk0; exact Hs2|assumption].
    rewrite (disconnect_client_idle T me ""
               (log (EvScan SCAN_TIMEOUT_S (inr ds2))
                  (tick (set_resolved_device None
                           (log (EvScan SCAN_TIMEOUT_S (inr ds1)) (tick sd)))))
               Hc0 Hi0).
    reflexivity. }
  destruct (Hcore s Hnl Hnone Hs1 Hs2) as (sd & Hdis & Hcl & Hens).
  split.
  - assert (Hnl' : ~ live T (log EvAcquire s)) by exact Hnl.
    destruct (Hcore (log EvAcquire s) Hnl' Hnone Hs1 Hs2) as (sd' & _ & _ & Hens').
    unfold ensure_connected, with_tx_lock, bind. rewrite Hens'. reflexivity.
  - rewrite Hens. unfold exec. rewrite Hdis. simpl.
    split; [reflexivity|]. split; [|exact Hcl].
    rewrite <- app_assoc. reflexivity.
Qed.

Lemma ensure_connected_no_matching_device_witness :
  fst (ensure_connected T_other_only MAIN_TASK initial)
  = Raise (ConnectError NotFoundError).
Proof.
  refine (proj1 (ensure_connected_no_matching_device
                   T_other_only MAIN_TASK initial [other_device] [other_device]
                   _ _ _ _ _ _)).
  - intros (c & Hc & _). discriminate Hc.
  - reflexivity.
  - reflexivity.
  - reflexivity.
  - intros d [<-|[]]. exact other_device_does_not_match.
  - intros d [<-|[]]. exact other_device_does_not_match.
Defined.

(** C4 as worded fails: when the scan discovers only "OtherDevice" at
    "AA:BB", [ensure_connected] does not raise [NotFoundError] itself but the
    [ConnectError] built from it, after two scans. *)
Lemma ensure_connected_raises_connect_error_not_not_found :
  scan_result T_other_only 0 = inr [other_device] /\
  ~ name_matches T_other_only other_device /\
  fst (ensure_connected T_other_only MAIN_TASK initial)
  = Raise (RuntimeError
             "Unable to connect: No BLE device found matching names: MELK-OA21") /\
  fst (ensure_connected T_other_only MAIN_TASK initial) <> Raise NotFoundError /\
  count is_scan (trace (exec (ensure_connected T_other_only MAIN_TASK) initial))
  = 2%nat.
Proof.
  split; [reflexivity|]. split; [exact other_device_does_not_match|].
  split; [reflexivity|]. split; [|reflexivity].
  intros H. vm_compute in H. discriminate H.
Qed.

(** A successful attempt records the client it returns, finds its link up,
    and arms the idle timer exactly when the idle timeout is not [None] and
    fails the test [timeout <= 0]. *)
Lemma connect_attempt_success (T : Transport) (me : TaskId) (s s' : Session)
      (c : Client) :
  connect_attempt T me s = (Ret c, s') ->
  _client s' = Some c /\
  link_up T (clock s') c = true /\
  (armed s' <-> timeout_enabled s') /\
  (next_client s <= client_id c)%nat.
Proof.
  unfold connect_attempt. unfold bind at 1.
  pose proof (guar_resolve (fun a b => next_client a <= next_client b)%nat) as Hmono.
  assert (Hst : Stable (fun a b => next_client a <= next_client b)%nat).
  { constructor; simpl; intros; lia. }
  specialize (Hmono Hst T s).
  destruct (resolve_device_address T s) as [[addr|e] sa];
    [|intros H; inversion H].
  simpl in Hmono.
  unfold bind at 1, new_BleakClient at 1.
  set (c0 := mkClient (next_client sa) addr).
  set (sb := set_client (Some c0) (fresh_client sa)).
  unfold bind at 1, wait_for_connect at 1.
  destruct (connect_result T (clock sb) c0) as [e|];
    [intros H; inversion H|].
  simpl of_option. cbv iota.
  set (sc := log (EvConnect c0 CONNECT_TIMEOUT_S None) (tick sb)).
  unfold bind at 1, client_is_connected at 1.
  destruct (link_up T (clock sc) c0) eqn:Eup; unfold negb; cbv beta iota;
    [|intros H; inversion H].
  unfold bind at 1.
  destruct (arm_spec T me sc)
    as (s4 & Hrun & (Hc & _ & Ht & Hk & _) & Harmed & _).
  rewrite Hrun. unfold ret. intros H. inversion H; subst c s'.
  assert (Hl : live T sc) by (exists c0; split; [reflexivity|exact Eup]).
  split; [rewrite Hc; reflexivity|].
  split; [rewrite Hk; exact Eup|].
  split; [|simpl; lia].
  unfold timeout_enabled. rewrite Ht. rewrite Harmed.
  unfold timeout_enabled. tauto.
Qed.



Lemma disconnect_extends T me reason :
  guar extends (_disconnect_client T me reason).
Proof.
  intros s.
  destruct (at_most_disconnect_client T me (fun _ => false)
              (fun _ => eq_refl) 0 (fun _ _ => Nat.le_refl _) reason s)
    as (evs & H & _).
  now exists evs.
Qed.






Example second_attempt_connects :
  let run := _ensure_connected T_first_connect_fails MAIN_TASK initial in
  fst run = Ret (mkClient 1 "BE:16:A5:00:12:34") /\
  count is_connect (trace (snd run)) = 2%nat /\
  count is_scan (trace (snd run)) = 2%nat /\
  _idle_task (snd run) = Some 1%nat.
Proof. vm_compute. repeat split; reflexivity. Qed.

(** ** Sending *)

Lemma send_is_locked_body (T : Transport) (me : TaskId) (payload : list Z) :
  send T me payload = with_tx_lock (send_locked T me payload).
Proof. reflexivity. Qed.

Section SendEvents.

Variable T : Transport.
Variable me : TaskId.
Variable payload : list Z.
Variable p : Event -> bool.

Hypothesis p_cancel : forall t, p (EvCancel t) = false.
Hypothesis p_create : forall t q, p (EvCreateTask t q) = false.
Hypothesis p_disconnect : forall c r, p (EvDisconnect c r) = false.
Hypothesis p_scan : forall r, p (EvScan SCAN_TIMEOUT_S r) = false.
Hypothesis p_connect : forall c r, p (EvConnect c CONNECT_TIMEOUT_S r) = false.
Hypothesis p_sleep : forall d, p (EvSleep d) = false.
Hypothesis p_print : forall line, p (EvPrint line) = false.

(** [nw] bounds what [p] counts in one write of [payload]. *)
Variable nw : nat.
Hypothesis p_write :
  forall c r,
    (count p [EvWrite c WRITE_UUID payload WRITE_WITH_RESPONSE r] <= nw)%nat.

Lemma at_most_ensure_connected_quiet : at_most p 0 (_ensure_connected T me).
Proof.
  apply (at_most_ensure_connected T me p p_cancel p_create 0
           (fun c r => count_one_false p _ 0 (p_disconnect c r)) 0 0
           (fun r => count_one_false p _ 0 (p_scan r))
           (fun c r => count_one_false p _ 0 (p_connect c r))).
Qed.

Lemma at_most_client_write c : at_most p nw (client_write T c payload).
Proof.
  apply (at_most_one_event p _
           (fun s => EvWrite c WRITE_UUID payload WRITE_WITH_RESPONSE
                       (write_result T (clock s) c payload)));
    [reflexivity|].
  intros s. apply p_write.
Qed.

Lemma at_most_send_locked : at_most p (nw + nw) (send_locked T me payload).
Proof.
  unfold send_locked.
  apply (at_most_bind p 0 (nw + nw));
    [lia|apply at_most_ensure_connected_quiet|intros c].
  apply (at_most_bind p (nw + nw) 0); [lia| |intros _].
  { apply (at_most_try_except p nw nw); [lia|apply at_most_client_write|intros _].
    apply (at_most_bind p 0 nw); [lia| |intros _].
    { apply (at_most_disconnect_client T me p p_cancel 0).
      intros c0 r. apply count_one_false, p_disconnect. }
    apply (at_most_bind p 0 nw);
      [lia|apply at_most_ensure_connected_quiet|intros c'].
    apply at_most_client_write. }
  apply (at_most_bind p 0 0); [lia| |intros _].
  { destruct (float_is_zero POST_WRITE_DELAY_S); [apply at_most_ret|].
    apply (at_most_one_event p _ (fun _ => EvSleep POST_WRITE_DELAY_S));
      [reflexivity|].
    intros _. apply count_one_false, p_sleep. }
  apply (at_most_bind p 0 0);
    [lia|apply (at_most_arm T me p p_cancel p_create)|intros _].
  apply (at_most_one_event p _ (fun _ => EvPrint ("sent: " ++ hex_sep payload)));
    [reflexivity|].
  intros _. apply count_one_false, p_print.
Qed.

End SendEvents.

Lemma count_zero_all (p : Event -> bool) (evs : list Event) :
  count p evs = 0%nat -> forall ev, In ev evs -> p ev = false.
Proof.
  unfold count. induction evs as [|x evs IH]; simpl; [intros _ ev []|].
  destruct (p x) eqn:Ex; simpl; [discriminate|].
  intros H ev [<-|Hin]; auto.
Qed.

Lemma is_other_write_false (payload : list Z) (ev : Event) :
  is_write ev = true -> is_other_write payload ev = false ->
  exists c r, ev = EvWrite c WRITE_UUID payload WRITE_WITH_RESPONSE r.
Proof.
  destruct ev; simpl; try discriminate. intros _ H.
  apply negb_false_iff in H. apply andb_true_iff in H. destruct H as [H Hr].
  apply andb_true_iff in H. destruct H as [Hu Hp].
  apply String.eqb_eq in Hu. apply Bool.eqb_prop in Hr.
  unfold list_Z_eqb in Hp.
  destruct (list_eq_dec Z.eq_dec payload0 payload); [|discriminate].
  subst. eauto.
Qed.

(** X2: every [send] takes the lock first and releases it last, also when
    it raises; in between it never touches the lock again and makes at most
    two transport writes, each of them the write of the unmodified payload to
    [WRITE_UUID] without response. *)
Theorem send_at_most_two_writes
        (T : Transport) (me : TaskId) (payload : list Z) (s : Session) :
  exists evs,
    trace (snd (send T me payload s))
    = (trace s ++ EvAcquire :: evs ++ [EvRelease])%list /\
    count is_lock evs = 0%nat /\
    (count is_write evs <= 2)%nat /\
    (forall ev, In ev evs -> is_write ev = true ->
                exists c r,
                  ev = EvWrite c WRITE_UUID payload WRITE_WITH_RESPONSE r).
Proof.
  rewrite send_is_locked_body. unfold with_tx_lock.
  destruct (at_most_send_locked T me payload is_lock
              (fun _ => eq_refl) (fun _ _ => eq_refl) (fun _ _ => eq_refl)
              (fun _ => eq_refl) (fun _ _ => eq_refl) (fun _ => eq_refl)
              (fun _ => eq_refl) 0 (fun _ _ => Nat.le_refl _)
              (log EvAcquire s)) as (evs & Ht & Hlock).
  destruct (at_most_send_locked T me payload is_write
              (fun _ => eq_refl) (fun _ _ => eq_refl) (fun _ _ => eq_refl)
              (fun _ => eq_refl) (fun _ _ => eq_refl) (fun _ => eq_refl)
              (fun _ => eq_refl) 1 (fun _ _ => Nat.le_refl _)
              (log EvAcquire s)) as (evs1 & Ht1 & Hwrite).
  assert (Hself : forall c r,
             (count (is_other_write payload)
                    [EvWrite c WRITE_UUID payload WRITE_WITH_RESPONSE r] <= 0)%nat).
  { intros c r. apply count_one_false. simpl. unfold list_Z_eqb.
    destruct (list_eq_dec Z.eq_dec payload payload); [reflexivity|congruence]. }
  destruct (at_most_send_locked T me payload (is_other_write payload)
              (fun _ => eq_refl) (fun _ _ => eq_refl) (fun _ _ => eq_refl)
              (fun _ => eq_refl) (fun _ _ => eq_refl) (fun _ => eq_refl)
              (fun _ => eq_refl) 0 Hself
              (log EvAcquire s)) as (evs2 & Ht2 & Hother).
  rewrite Ht in Ht1, Ht2. apply app_inv_head in Ht1, Ht2. subst evs1 evs2.
  destruct (send_locked T me payload (log EvAcquire s)) as [r s1].
  simpl in *. exists evs. rewrite Ht.
  split; [rewrite <- !app_assoc; reflexivity|].
  split; [lia|]. split; [lia|].
  intros ev Hin Hw. apply is_other_write_false; [exact Hw|].
  apply (count_zero_all (is_other_write payload) evs); [lia|exact Hin].
Qed.

Lemma send_at_most_two_writes_witness :
  exists evs,
    trace (snd (send T_writes_fail MAIN_TASK (pkt_power true) initial))
    = (trace initial ++ EvAcquire :: evs ++ [EvRelease])%list /\
    (count is_write evs <= 2)%nat.
Proof.
  destruct (send_at_most_two_writes T_writes_fail MAIN_TASK (pkt_power true)
              initial) as (evs & Ht & _ & Hw & _).
  exists evs. split; assumption.
Defined.

Example failing_writes_are_tried_twice :
  count is_write
    (trace (snd (send T_writes_fail MAIN_TASK (pkt_power true) initial)))
  = 2%nat.
Proof. vm_compute. reflexivity. Qed.

Lemma stable_client_order : Stable client_order.
Proof. unfold client_order. constructor; simpl; intros; lia. Qed.

Lemma arm_client_order T me : guar client_order (_arm_idle_timer_locked T me).
Proof.
  intros s. destruct (arm_spec T me s) as (s' & Hrun & (_ & _ & _ & _ & Hn) & _).
  rewrite Hrun. unfold client_order. simpl. lia.
Qed.

Lemma disconnect_client_order T me reason :
  guar client_order (_disconnect_client T me reason).
Proof.
  intros s.
  destruct (disconnect_client_spec T me reason s)
    as (s' & Hrun & _ & _ & _ & _ & Hn & _).
  rewrite Hrun. unfold client_order. simpl. lia.
Qed.

(** A connection established from a session without a handle is made with a
    client object created for it. *)
Lemma ensure_connected_fresh (T : Transport) (me : TaskId) (s s' : Session)
      (c : Client) :
  _client s = None ->
  _ensure_connected T me s = (Ret c, s') ->
  (next_client s <= client_id c)%nat.
Proof.
  intros Hnone Hrun.
  assert (Hnl : ~ live T s).
  { intros (c0 & Hc0 & _). congruence. }
  rewrite (ensure_connected_not_live T me s Hnl) in Hrun.
  unfold bind at 1 in Hrun.
  destruct (disconnect_client_spec T me "" s)
    as (s0 & Hd & _ & _ & _ & _ & Hn0 & _).
  rewrite Hd, (not_live_no_disconnect_failure T s Hnl) in Hrun.
  simpl of_option in Hrun. cbv beta iota in Hrun.
  rewrite connect_attempts_two in Hrun.
  pose proof (guar_connect_attempt client_order stable_client_order T me
                (arm_client_order T me) s0) as Hm1.
  destruct (connect_attempt T me s0) as [[c1|e1] s1] eqn:H1.
  - inversion Hrun; subst c1 s1.
    destruct (connect_attempt_success T me s0 s' c H1) as (_ & _ & _ & Hid).
    lia.
  - pose proof (disconnect_client_order T me "" s1) as Hm2.
    destruct (_disconnect_client T me "" s1) as [[[]|d] s2];
      [|inversion Hrun].
    destruct (connect_attempt T me (set_resolved_device None s2))
      as [[c2|e2] s3] eqn:H3.
    + inversion Hrun; subst c2 s3.
      destruct (connect_attempt_success T me _ s' c H3) as (_ & _ & _ & Hid).
      unfold client_order in *. simpl in *. lia.
    + destruct (_disconnect_client T me "" s3) as [[[]|d] s4];
        inversion Hrun.
Qed.

(** X3: what [send] does after a failed first write.  It runs the
    force-disconnect; if that raises, the error comes out and nothing is
    retried.  Otherwise it connects again, with a client object created after
    the failure, and writes the payload once more: the error of that second
    write, if any, is the one [send] raises, with no further write; if the
    second write succeeds [send] returns normally.  A failed reconnect raises
    its own error, without a second write. *)
Theorem send_retries_once
        (T : Transport) (me : TaskId) (payload : list Z) (s s1 : Session)
        (c : Client) (e1 : Exn) :
  _ensure_connected T me (log EvAcquire s) = (Ret c, s1) ->
  write_result T (clock s1) c payload = Some e1 ->
  let s2 := log (EvWrite c WRITE_UUID payload WRITE_WITH_RESPONSE (Some e1))
                (tick s1) in
  (forall d s3,
      _disconnect_client T me "" s2 = (Raise d, s3) ->
      send T me payload s = (Raise d, log EvRelease s3)) /\
  (forall s3,
      _disconnect_client T me "" s2 = (Ret tt, s3) ->
      (forall e s4,
          _ensure_connected T me s3 = (Raise e, s4) ->
          send T me payload s = (Raise e, log EvRelease s4)) /\
      (forall c' s4,
          _ensure_connected T me s3 = (Ret c', s4) ->
          (next_client s2 <= client_id c')%nat /\
          (forall e2,
              write_result T (clock s4) c' payload = Some e2 ->
              send T me payload s
              = (Raise e2,
                 log EvRelease
                   (log (EvWrite c' WRITE_UUID payload WRITE_WITH_RESPONSE
                           (Some e2)) (tick s4)))) /\
          (write_result T (clock s4) c' payload = None ->
           fst (send T me payload s) = Ret tt))).
Proof.
  intros Hens Hw s2.
  assert (Hstart : send T me payload s =
            (let (r, sx) :=
               (_disconnect_client T me "";;
                client <- _ensure_connected T me;;
                client_write T client payload;;
                (if float_is_zero POST_WRITE_DELAY_S then ret tt
                 else sleep POST_WRITE_DELAY_S);;
                _arm_idle_timer_locked T me;;
                print ("sent: " ++ hex_sep payload)) s2 in
             (r, log EvRelease sx))).
  { rewrite send_is_locked_body. unfold with_tx_lock, send_locked.
    unfold bind at 1. rewrite Hens. cbv beta iota.
    unfold bind at 1. unfold try_except at 1, client_write at 1.
    rewrite Hw. simpl of_option. cbv beta iota. fold s2.
    unfold bind.
    destruct (_disconnect_client T me "" s2) as [[[]|d] s3]; [|reflexivity].
    destruct (_ensure_connected T me s3) as [[c'|e] s4]; [|reflexivity].
    destruct (client_write T c' payload s4) as [[[]|e2] s5]; reflexivity. }
  rewrite Hstart. clear Hstart. split.
  - intros d s3 Hd. rewrite (bind_raise_eq _ _ _ _ _ Hd). reflexivity.
  - intros s3 Hd. rewrite (bind_ret_eq _ _ _ _ _ Hd). split.
    + intros e s4 He. rewrite (bind_raise_eq _ _ _ _ _ He). reflexivity.
    + intros c' s4 He. rewrite (bind_ret_eq _ _ _ _ _ He).
      split; [|split].
      * destruct (disconnect_client_spec T me "" s2)
          as (sd & Hrun & Hcl & _ & _ & _ & Hn & _).
        rewrite Hd in Hrun. inversion Hrun; subst sd.
        pose proof (ensure_connected_fresh T me s3 s4 c' Hcl He). lia.
      * intros e2 Hw2.
        assert (Hwr : client_write T c' payload s4
                      = (Raise e2,
                         log (EvWrite c' WRITE_UUID payload WRITE_WITH_RESPONSE
                                (Some e2)) (tick s4))).
        { unfold client_write. rewrite Hw2. reflexivity. }
        rewrite (bind_raise_eq _ _ _ _ _ Hwr). reflexivity.
      * intros Hw2.
        assert (Hwr : client_write T c' payload s4
                      = (Ret tt,
                         log (EvWrite c' WRITE_UUID payload WRITE_WITH_RESPONSE
                                None) (tick s4))).
        { unfold client_write. rewrite Hw2. reflexivity. }
        rewrite (bind_ret_eq _ _ _ _ _ Hwr).
        change (float_is_zero POST_WRITE_DELAY_S) with false. cbv iota.
        rewrite (bind_ret_eq (sleep POST_WRITE_DELAY_S) _ _ _ tt eq_refl).
        destruct (arm_spec T me
                    (log (EvSleep POST_WRITE_DELAY_S)
                       (tick (log (EvWrite c' WRITE_UUID payload
                                     WRITE_WITH_RESPONSE None) (tick s4)))))
          as (s6 & Harm & _).
        rewrite (bind_ret_eq _ _ _ _ _ Harm). reflexivity.
Qed.

Lemma send_retries_once_witness :
  fst (send T_first_write_fails MAIN_TASK (pkt_power true) initial) = Ret tt /\
  fst (send T_writes_fail MAIN_TASK (pkt_power true) initial)
  = Raise (BleakError "write failed").
Proof.
  split.
  - set (T := T_first_write_fails).
    set (s1 := snd (_ensure_connected T MAIN_TASK (log EvAcquire initial))).
    assert (Hens : _ensure_connected T MAIN_TASK (log EvAcquire initial)
                   = (Ret melk_client, s1)) by (vm_compute; reflexivity).
    assert (Hw : write_result T (clock s1) melk_client (pkt_power true)
                 = Some (BleakError "write failed"))
      by (vm_compute; reflexivity).
    destruct (send_retries_once T MAIN_TASK (pkt_power true) initial s1
                melk_client _ Hens Hw) as [_ Hretry].
    set (s3 := snd (_disconnect_client T MAIN_TASK ""
                      (log (EvWrite melk_client WRITE_UUID (pkt_power true)
                              WRITE_WITH_RESPONSE
                              (Some (BleakError "write failed"))) (tick s1)))).
    assert (Hd : _disconnect_client T MAIN_TASK ""
                   (log (EvWrite melk_client WRITE_UUID (pkt_power true)
                           WRITE_WITH_RESPONSE
                           (Some (BleakError "write failed"))) (tick s1))
                 = (Ret tt, s3)) by (vm_compute; reflexivity).
    destruct (Hretry s3 Hd) as [_ Hre].
    set (s4 := snd (_ensure_connected T MAIN_TASK s3)).
    assert (He : _ensure_connected T MAIN_TASK s3
                 = (Ret (mkClient 1 "BE:16:A5:00:12:34"), s4))
      by (vm_compute; reflexivity).
    destruct (Hre _ s4 He) as (_ & _ & Hok).
    apply Hok. vm_compute. reflexivity.
  - set (T := T_writes_fail).
    set (s1 := snd (_ensure_connected T MAIN_TASK (log EvAcquire initial))).
    assert (Hens : _ensure_connected T MAIN_TASK (log EvAcquire initial)
                   = (Ret melk_client, s1)) by (vm_compute; reflexivity).
    assert (Hw : write_result T (clock s1) melk_client (pkt_power true)
                 = Some (BleakError "write failed"))
      by (vm_compute; reflexivity).
    destruct (send_retries_once T MAIN_TASK (pkt_power true) initial s1
                melk_client _ Hens Hw) as [_ Hretry].
    set (s3 := snd (_disconnect_client T MAIN_TASK ""
                      (log (EvWrite melk_client WRITE_UUID (pkt_power true)
                              WRITE_WITH_RESPONSE
                              (Some (BleakError "write failed"))) (tick s1)))).
    assert (Hd : _disconnect_client T MAIN_TASK ""
                   (log (EvWrite melk_client WRITE_UUID (pkt_power true)
                           WRITE_WITH_RESPONSE
                           (Some (BleakError "write failed"))) (tick s1))
                 = (Ret tt, s3)) by (vm_compute; reflexivity).
    destruct (Hretry s3 Hd) as [_ Hre].
    set (s4 := snd (_ensure_connected T MAIN_TASK s3)).
    assert (He : _ensure_connected T MAIN_TASK s3
                 = (Ret (mkClient 1 "BE:16:A5:00:12:34"), s4))
      by (vm_compute; reflexivity).
    destruct (Hre _ s4 He) as (_ & Hfail & _).
    rewrite (Hfail (BleakError "write failed")); [reflexivity|].
    vm_compute. reflexivity.
Defined.

(** A connection established from a session without a live connection is
    recorded and its link is up. *)
Lemma ensure_connected_returns_live (T : Transport) (me : TaskId)
      (s s' : Session) (c : Client) :
  ~ live T s ->
  _ensure_connected T me s = (Ret c, s') ->
  _client s' = Some c /\ link_up T (clock s') c = true.
Proof.
  intros Hnl Hrun.
  rewrite (ensure_connected_not_live T me s Hnl) in Hrun.
  destruct (disconnect_client_spec T me "" s) as (s0 & Hd & _).
  rewrite (not_live_no_disconnect_failure T s Hnl) in Hd.
  simpl of_option in Hd.
  rewrite (bind_ret_eq _ _ _ _ _ Hd), connect_attempts_two in Hrun.
  destruct (connect_attempt T me s0) as [[c1|e1] s1] eqn:H1.
  - inversion Hrun; subst c1 s1.
    destruct (connect_attempt_success T me s0 s' c H1) as (A & B & _). auto.
  - destruct (_disconnect_client T me "" s1) as [[[]|d] s2];
      [|inversion Hrun].
    destruct (connect_attempt T me (set_resolved_device None s2))
      as [[c2|e2] s3] eqn:H3.
    + inversion Hrun; subst c2 s3.
      destruct (connect_attempt_success T me _ s' c H3) as (A & B & _). auto.
    + destruct (_disconnect_client T me "" s3) as [[[]|d] s4];
        inversion Hrun.
Qed.

(** ** The write and its one retry *)







(** The three ways a [send] ends after a first connection: a good write, a
    failed write followed by a good retry, and two failed writes. *)
Example send_write_counts :
  let writes T :=
    count is_write (trace (snd (send T MAIN_TASK (pkt_power true) initial))) in
  let result T := fst (send T MAIN_TASK (pkt_power true) initial) in
  (result T_good = Ret tt /\ writes T_good = 1%nat) /\
  (result T_first_write_fails = Ret tt /\ writes T_first_write_fails = 2%nat) /\
  (result T_writes_fail = Raise (BleakError "write failed") /\
   writes T_writes_fail = 2%nat).
Proof. vm_compute. repeat split; reflexivity. Qed.

(** ** Reusing, dropping and replacing the connection *)

Lemma is_transport_event_task_events :
  (forall t, is_transport_event (EvCancel t) = false) /\
  (forall t q, is_transport_event (EvCreateTask t q) = false).
Proof. split; reflexivity. Qed.

(** X4: with a live connection [_ensure_connected] makes no transport call
    and creates no client: it returns the recorded client and only re-arms the
    idle timer, which ends armed exactly when the idle timeout is not [None]
    and fails the test [timeout <= 0] (it is greater than 0, or NaN). *)
Theorem ensure_connected_reuses_live_connection
        (T : Transport) (me : TaskId) (s : Session) (c : Client) :
  _client s = Some c ->
  link_up T (clock s) c = true ->
  let s' := snd (_ensure_connected T me s) in
  fst (_ensure_connected T me s) = Ret c /\
  untouched s s' /\
  (armed s' <-> timeout_enabled s) /\
  exists evs,
    trace s' = (trace s ++ evs)%list /\ count is_transport_event evs = 0%nat.
Proof.
  intros Hc Hup s'. subst s'.
  rewrite (ensure_connected_live T me s c Hc Hup).
  destruct (arm_spec T me s) as (s1 & Hrun & Hun & Harmed & _).
  destruct (at_most_arm T me is_transport_event
              (fun _ => eq_refl) (fun _ _ => eq_refl) 0 s) as (evs & Ht & Hn).
  rewrite Hrun in Ht. simpl in Ht.
  rewrite (bind_ret_eq _ _ _ _ _ Hrun). simpl.
  split; [reflexivity|]. split; [exact Hun|]. split.
  - rewrite Harmed. split; [tauto|].
    intros H. split; [exists c; auto|exact H].
  - exists evs. split; [exact Ht|lia].
Qed.

Lemma ensure_connected_reuses_live_connection_witness :
  fst (_ensure_connected T_good MAIN_TASK s_connected) = Ret melk_client.
Proof.
  apply (ensure_connected_reuses_live_connection
           T_good MAIN_TASK s_connected melk_client eq_refl eq_refl).
Defined.

(** X5: [disconnect] is idempotent on the session.  Whatever a first
    [disconnect] did, and whether or not it raised, a [disconnect] right
    after it returns normally and does nothing but take and release the lock:
    no transport call, no change to the session. *)
Theorem disconnect_twice (T : Transport) (me : TaskId) (s : Session) :
  let s1 := snd (disconnect T me s) in
  _client s1 = None /\
  _idle_task s1 = None /\
  disconnect T me s1 = (Ret tt, log EvRelease (log EvAcquire s1)).
Proof.
  cbv zeta.
  destruct (disconnect_client_spec T me "" (log EvAcquire s))
    as (sd & Hrun & Hc & Hi & _).
  assert (E : snd (disconnect T me s) = log EvRelease sd).
  { unfold disconnect, with_tx_lock. rewrite Hrun. reflexivity. }
  rewrite E.
  split; [exact Hc|]. split; [exact Hi|].
  unfold disconnect, with_tx_lock.
  rewrite (disconnect_client_idle T me "" (log EvAcquire (log EvRelease sd)) Hc Hi).
  reflexivity.
Qed.

(** X6: [reconnect] never keeps the old connection.  If its disconnect
    raises, that error comes out and no connection is attempted.  If it
    returns normally, the recorded client is one created during the call and
    its link is up. *)
Theorem reconnect_replaces_the_client
        (T : Transport) (me : TaskId) (s : Session) :
  (forall e sd,
      _disconnect_client T me "" (log EvAcquire s) = (Raise e, sd) ->
      reconnect T me s = (Raise e, log EvRelease sd) /\
      _client sd = None) /\
  (forall s',
      reconnect T me s = (Ret tt, s') ->
      exists c,
        _client s' = Some c /\
        (next_client s <= client_id c)%nat /\
        link_up T (clock s') c = true).
Proof.
  unfold reconnect, with_tx_lock.
  destruct (disconnect_client_spec T me "" (log EvAcquire s))
    as (sd & Hrun & Hc & Hi & _ & _ & Hn & _).
  split.
  - intros e sd' Hd. rewrite (bind_raise_eq _ _ _ _ _ Hd).
    rewrite Hd in Hrun. inversion Hrun; subst sd'. auto.
  - intros s'.
    destruct (transport_disconnect_failure T (log EvAcquire s)) as [e|];
      simpl of_option in Hrun.
    + rewrite (bind_raise_eq _ _ _ _ _ Hrun). intros H; inversion H.
    + rewrite (bind_ret_eq _ _ _ _ _ Hrun).
      assert (Hnl : ~ live T sd).
      { intros (c0 & Hc0 & _). congruence. }
      destruct (_ensure_connected T me sd) as [[c|e] s4] eqn:He.
      * rewrite (bind_ret_eq _ _ _ _ _ He). unfold ret. intros H.
        inversion H; subst s'. simpl.
        destruct (ensure_connected_returns_live T me sd s4 c Hnl He)
          as (Hcl & Hup).
        exists c. split; [exact Hcl|]. split; [|exact Hup].
        pose proof (ensure_connected_fresh T me sd s4 c Hc He).
        simpl in Hn. lia.
      * rewrite (bind_raise_eq _ _ _ _ _ He). intros H; inversion H.
Qed.

Lemma reconnect_replaces_the_client_witness :
  exists c,
    _client (snd (reconnect T_good MAIN_TASK s_connected)) = Some c /\
    (next_client s_connected <= client_id c)%nat.
Proof.
  destruct (proj2 (reconnect_replaces_the_client T_good MAIN_TASK s_connected)
                  (snd (reconnect T_good MAIN_TASK s_connected)))
    as (c & Hc & Hn & _).
  - vm_compute. reflexivity.
  - exists c. split; assumption.
Defined.

(** X7: [connection_status] only reads.  It never raises, leaves the session
    as it was but for the lock events in the trace, and answers "connected"
    exactly when a client is recorded and its link is up. *)
Theorem connection_status_only_reads (T : Transport) (s : Session) :
  exists line,
    connection_status T s = (Ret line, log EvRelease (log EvAcquire s)) /\
    (live T s ->
     line = "connected (idle timeout: " ++ _idle_timeout_label s ++ ")") /\
    (~ live T s ->
     line = "disconnected (idle timeout: " ++ _idle_timeout_label s ++ ")").
Proof.
  unfold connection_status, with_tx_lock, bind, get, client_is_connected, ret,
    live.
  simpl.
  destruct (_client s) as [c|] eqn:Ec; simpl.
  - destruct (link_up T (clock s) c) eqn:Eup; simpl.
    + eexists. split; [reflexivity|]. split; [reflexivity|].
      intros Hnl. exfalso. apply Hnl. exists c. auto.
    + eexists. split; [reflexivity|]. split; [|reflexivity].
      intros (c' & Hc' & Hup'). inversion Hc'; subst. congruence.
  - eexists. split; [reflexivity|]. split; [|reflexivity].
    intros (c' & Hc' & _). discriminate.
Qed.

Lemma connection_status_only_reads_witness :
  exists line,
    connection_status T_good s_connected
    = (Ret line, log EvRelease (log EvAcquire s_connected)) /\
    line = "connected (idle timeout: 300.0s)".
Proof.
  destruct (connection_status_only_reads T_good s_connected)
    as (line & Hrun & Hlive & _).
  exists line. split; [exact Hrun|].
  apply Hlive. exists melk_client. split; reflexivity.
Defined.

(** ** Changing the idle timeout *)

(** X8: [set_idle_timeout] stores the value and replaces the timer without
    touching the connection or the transport: the value is recorded, the
    previous timer (unless it is the caller itself) is cancelled, and a timer
    is armed afterwards exactly when the connection is live and the new value
    is a float that fails the test [value <= 0] (it is greater than 0, or
    NaN); a newly armed timer has a token that was never used before.  In particular [set_idle_timeout(None)] always leaves
    no timer armed. *)
Theorem set_idle_timeout_replaces_the_timer
        (T : Transport) (me : TaskId) (value : option PyFloat) (s : Session) :
  let s' := snd (set_idle_timeout T me value s) in
  _idle_timeout_s s' = value /\
  _client s' = _client s /\
  _resolved_device s' = _resolved_device s /\
  clock s' = clock s /\
  (armed s' <-> live T s /\ exists v, value = Some v /\ float_le_zero v = false) /\
  (value = None -> _idle_task s' = None) /\
  (forall t, _idle_task s = Some t -> t <> me -> was_cancelled t s' = true) /\
  (forall t, _idle_task s' = Some t -> t = next_task s) /\
  exists evs,
    trace s' = (trace s ++ EvAcquire :: evs ++ [EvRelease])%list /\
    count is_transport_event evs = 0%nat.
Proof.
  cbv zeta. unfold set_idle_timeout, with_tx_lock.
  set (s0 := set_idle_timeout_s value (log EvAcquire s)).
  rewrite (bind_ret_eq (modify (set_idle_timeout_s value)) _
             (log EvAcquire s) s0 tt eq_refl).
  destruct (arm_spec T me s0)
    as (s1 & Hrun & (Hc & Hr & Ht & Hk & _) & Harmed & Hnew & _ & Hcan & _).
  destruct (at_most_arm T me is_transport_event
              (fun _ => eq_refl) (fun _ _ => eq_refl) 0 s0) as (evs & Htr & Hn).
  rewrite Hrun in Htr. simpl in Htr.
  rewrite (bind_ret_eq _ _ _ _ _ Hrun). unfold get. simpl.
  assert (Hiff : armed s1 <->
                 live T s /\ exists v, value = Some v /\ float_le_zero v = false).
  { rewrite Harmed. unfold live, timeout_enabled. simpl. tauto. }
  split; [exact Ht|]. split; [exact Hc|]. split; [exact Hr|].
  split; [exact Hk|]. split; [exact Hiff|]. split; [|split; [|split]].
  - intros ->. destruct (_idle_task s1) eqn:E; [|reflexivity].
    assert (Ha : armed s1) by (unfold armed; congruence).
    apply Hiff in Ha. destruct Ha as (_ & v & Hv & _). discriminate.
  - intros t Hi Hne. apply was_cancelled_In. apply (Hcan t Hi Hne).
  - intros t Hi. apply (Hnew t Hi).
  - exists evs. split; [|lia]. rewrite Htr. rewrite <- !app_assoc. reflexivity.
Qed.

Example idle_off_disarms :
  _idle_task (snd (set_idle_timeout T_good MAIN_TASK None s_connected)) = None /\
  cancelled (snd (set_idle_timeout T_good MAIN_TASK None s_connected)) = [1%nat].
Proof. vm_compute. split; reflexivity. Qed.

Lemma set_idle_timeout_replaces_the_timer_witness :
  _idle_task (snd (set_idle_timeout T_good MAIN_TASK None s_connected)) = None /\
  was_cancelled 1
    (snd (set_idle_timeout T_good MAIN_TASK (Some (Finite 5)) s_connected)) = true.
Proof.
  split.
  - destruct (set_idle_timeout_replaces_the_timer
                T_good MAIN_TASK None s_connected)
      as (_ & _ & _ & _ & _ & Hoff & _).
    apply Hoff. reflexivity.
  - destruct (set_idle_timeout_replaces_the_timer
                T_good MAIN_TASK (Some (Finite 5)) s_connected)
      as (_ & _ & _ & _ & _ & _ & Hcan & _).
    apply Hcan; [reflexivity|]. unfold MAIN_TASK. discriminate.
Defined.

(** ** The idle worker when it fires, and the tokens over a whole run *)

(** X9: when the worker wakes uncancelled and its token is still the
    recorded one, it disconnects: afterwards no client and no timer are
    recorded and it has not cancelled itself.  It prints "auto-disconnected"
    when the transport disconnect did not raise; when it raised, the error
    ends the worker and nothing is printed. *)
Theorem idle_worker_disconnects
        (T : Transport) (w : TaskId) (timeout_s : PyFloat) (s : Session) :
  _idle_task s = Some w ->
  was_cancelled w s = false ->
  let s0 := log EvAcquire (log (EvSleep timeout_s) (tick s)) in
  let r := fst (_idle_disconnect_worker T w timeout_s s) in
  let s' := snd (_idle_disconnect_worker T w timeout_s s) in
  _client s' = None /\
  _idle_task s' = None /\
  was_cancelled w s' = false /\
  (transport_disconnect_failure T s0 = None ->
   r = Ret tt /\
   exists evs,
     trace s' = (trace s0 ++ evs ++ [EvPrint "auto-disconnected"; EvRelease])%list /\
     count is_print evs = 0%nat) /\
  (forall e,
      transport_disconnect_failure T s0 = Some e ->
      r = Raise e /\
      exists evs,
        trace s' = (trace s0 ++ evs ++ [EvRelease])%list /\
        count is_print evs = 0%nat).
Proof.
  intros Hi Hnc. cbv zeta.
  set (s0 := log EvAcquire (log (EvSleep timeout_s) (tick s))).
  assert (Hrun : _idle_disconnect_worker T w timeout_s s =
                 (let (o, sx) :=
                    (_disconnect_client T w
                       ("idle timeout (" ++ format_1f timeout_s ++ "s)");;
                     print "auto-disconnected") s0 in
                  (o, log EvRelease sx))).
  { unfold _idle_disconnect_worker, sleep_unless_cancelled, with_tx_lock.
    unfold bind at 1. rewrite Hnc. unfold negb at 1. cbv beta iota.
    fold s0. unfold bind at 1, get at 1.
    replace (_idle_task s0) with (Some w) by (symmetry; exact Hi).
    unfold is_task. rewrite Nat.eqb_refl. unfold negb. reflexivity. }
  rewrite Hrun. clear Hrun.
  destruct (disconnect_client_spec T w
              ("idle timeout (" ++ format_1f timeout_s ++ "s)") s0)
    as (sd & Hd & Hc & Hid & _ & _ & _ & _ & _ & _ & _ & Hcan).
  destruct (at_most_disconnect_client T w is_print (fun _ => eq_refl) 0
              (fun _ _ => Nat.le_refl _)
              ("idle timeout (" ++ format_1f timeout_s ++ "s)") s0)
    as (evs & Ht & Hn).
  rewrite Hd in Ht. change (trace sd = (trace s0 ++ evs)%list) in Ht.
  assert (Hself : was_cancelled w sd = false).
  { destruct (was_cancelled w sd) eqn:E; [|reflexivity].
    apply was_cancelled_In in E. destruct (Hcan w E) as [Hin|[_ Hne]].
    - apply was_cancelled_In in Hin.
      change (was_cancelled w s = true) in Hin. congruence.
    - exfalso. exact (Hne eq_refl). }
  destruct (transport_disconnect_failure T s0) as [e|]; simpl of_option in Hd.
  - rewrite (bind_raise_eq _ _ _ _ _ Hd). simpl.
    split; [exact Hc|]. split; [exact Hid|]. split; [exact Hself|].
    split; [discriminate|].
    intros e' He'. inversion He'; subst e'. split; [reflexivity|].
    exists evs. split; [|lia].
    rewrite Ht. subst s0. simpl. rewrite <- ?app_assoc. simpl. reflexivity.
  - rewrite (bind_ret_eq _ _ _ _ _ Hd). simpl.
    split; [exact Hc|]. split; [exact Hid|]. split; [exact Hself|].
    split; [|discriminate].
    intros _. split; [reflexivity|].
    exists evs. split; [|lia].
    rewrite Ht. subst s0. simpl. rewrite <- ?app_assoc. simpl. reflexivity.
Qed.

Lemma idle_worker_disconnects_witness :
  _client (snd (_idle_disconnect_worker T_good 1 DEFAULT_IDLE_TIMEOUT_S
                  s_connected)) = None /\
  fst (_idle_disconnect_worker T_disconnect_fails 1 DEFAULT_IDLE_TIMEOUT_S
         s_connected) = Raise (BleakError "disconnect failed").
Proof.
  split.
  - apply (idle_worker_disconnects T_good 1 DEFAULT_IDLE_TIMEOUT_S s_connected);
      reflexivity.
  - destruct (idle_worker_disconnects
                T_disconnect_fails 1 DEFAULT_IDLE_TIMEOUT_S s_connected
                eq_refl eq_refl) as (_ & _ & _ & _ & Hfail).
    apply (Hfail (BleakError "disconnect failed")). reflexivity.
Defined.

Lemma stable_keeps_tokens_wf : Stable keeps_tokens_wf.
Proof.
  unfold keeps_tokens_wf, tokens_wf.
  constructor; simpl; auto.
Qed.

Lemma arm_keeps_tokens_wf T me :
  guar keeps_tokens_wf (_arm_idle_timer_locked T me).
Proof.
  intros s (Hpos & Hcan & Hidle).
  destruct (arm_spec T me s)
    as (s' & Hrun & _ & _ & Hnew & Hle & _ & Hcan').
  rewrite Hrun. simpl.
  assert (Hold : forall t, In t (cancelled s') -> (0 < t < next_task s)%nat).
  { intros t Ht. destruct (Hcan' t Ht) as [Hin|[Heq _]].
    - apply Hcan, Hin.
    - apply Hidle, Heq. }
  split; [lia|]. split.
  - intros t Ht. specialize (Hold t Ht). lia.
  - intros t Ht. destruct (Hnew t Ht) as [-> Hn]. split; [lia|].
    intros Hin. specialize (Hold _ Hin). lia.
Qed.

Lemma disconnect_keeps_tokens_wf T me reason :
  guar keeps_tokens_wf (_disconnect_client T me reason).
Proof.
  intros s (Hpos & Hcan & Hidle).
  destruct (disconnect_client_spec T me reason s)
    as (s' & Hrun & _ & Hi & _ & _ & _ & Hn & _ & _ & _ & Hcan').
  rewrite Hrun. unfold tokens_wf. simpl. rewrite Hn.
  split; [lia|]. split.
  - intros t Ht. destruct (Hcan' t Ht) as [Hin|[Heq _]].
    + apply Hcan, Hin.
    + apply Hidle, Heq.
  - intros t Ht. congruence.
Qed.

(** X10: over any sequence of operations from the initial session, the
    timer tokens stay well formed: the task recorded as the idle timer is
    never one that has been cancelled, and every token recorded or cancelled
    was created before (so a new token is never an old one). *)
Theorem tokens_stay_well_formed (T : Transport) (ops : list Op) :
  tokens_wf (run_ops T ops initial).
Proof.
  apply (guar_run_ops keeps_tokens_wf stable_keeps_tokens_wf T
           (arm_keeps_tokens_wf T) (disconnect_keeps_tokens_wf T)
           (fun v s H => H) ops initial).
  unfold tokens_wf, initial; simpl.
  split; [lia|]. split; [intros t []|intros t Ht; discriminate].
Qed.

(** ** Sending over a live connection *)

Lemma cancel_idle_trace (me : TaskId) (s : Session) :
  exists s1 cancels,
    _cancel_idle_task_locked me s = (Ret tt, s1) /\
    trace s1 = (trace s ++ cancels)%list /\
    ((cancels = [] /\ (_idle_task s = None \/ _idle_task s = Some me)) \/
     (exists t, _idle_task s = Some t /\ t <> me /\ cancels = [EvCancel t])) /\
    _idle_task s1 = None /\
    _client s1 = _client s /\
    _idle_timeout_s s1 = _idle_timeout_s s /\
    clock s1 = clock s /\
    next_task s1 = next_task s.
Proof.
  unfold _cancel_idle_task_locked, bind, get.
  destruct (_idle_task s) as [t|] eqn:Et; simpl.
  - destruct (t =? me)%nat eqn:E; simpl.
    + apply Nat.eqb_eq in E. subst t.
      eexists. exists []. split; [reflexivity|]. simpl. rewrite app_nil_r.
      repeat split; auto.
    + apply Nat.eqb_neq in E.
      eexists. exists [EvCancel t]. split; [reflexivity|]. simpl.
      repeat split; auto. right. exists t. auto.
  - exists s, []. rewrite app_nil_r. repeat split; auto.
Qed.

Lemma arm_trace (T : Transport) (me : TaskId) (s : Session) :
  let s' := snd (_arm_idle_timer_locked T me s) in
  exists cancels creates,
    trace s' = (trace s ++ cancels ++ creates)%list /\
    ((cancels = [] /\ (_idle_task s = None \/ _idle_task s = Some me)) \/
     (exists t, _idle_task s = Some t /\ t <> me /\ cancels = [EvCancel t])) /\
    ((creates = [] /\ _idle_task s' = None) \/
     (exists v, _idle_timeout_s s = Some v /\
                creates = [EvCreateTask (next_task s) v] /\
                _idle_task s' = Some (next_task s))).
Proof.
  cbv zeta.
  destruct (cancel_idle_trace me s)
    as (s1 & cancels & Hrun & Htr & Hcases & Hi & Hc & Ht & Hk & Hn).
  unfold _arm_idle_timer_locked.
  rewrite (bind_ret_eq _ _ _ _ _ Hrun).
  exists cancels.
  unfold bind, get, client_is_connected. rewrite Hc.
  assert (Hnone : trace s1 = (trace s ++ cancels ++ [])%list)
    by (rewrite app_nil_r; exact Htr).
  destruct (_client s) as [c|]; cbv beta iota.
  - rewrite Hk. destruct (link_up T (clock s) c); unfold negb; cbv beta iota.
    + rewrite Ht. destruct (_idle_timeout_s s) as [v|]; cbv beta iota.
      * destruct (float_le_zero v); cbv beta iota.
        -- exists []. simpl. auto.
        -- exists [EvCreateTask (next_task s) v]. unfold create_idle_task.
           simpl. rewrite Htr, Hn, <- app_assoc.
           split; [reflexivity|]. split; [exact Hcases|]. right. exists v. auto.
      * exists []. simpl. auto.
    + exists []. simpl. auto.
  - exists []. simpl. auto.
Qed.

(** X11: over a live connection, when the write succeeds, [send] makes
    exactly one transport call, the write of the payload to the recorded
    client: no scan, no connect, no disconnect, no new client.  It then waits
    [POST_WRITE_DELAY_S], re-arms the timer, prints the payload in hex and
    returns normally, with the same client and the same idle timeout
    recorded.  Re-arming means: the timer recorded on entry is cancelled
    before the write, the timer armed before the write is cancelled after the
    delay, and the timer recorded on return, if any, is a new one created
    after the delay with the idle timeout as its duration.  A timer is
    recorded on return exactly when the link is still up then and the idle
    timeout is not [None] and fails the test [timeout <= 0]. *)
Theorem send_on_live_connection
        (T : Transport) (me : TaskId) (payload : list Z) (s : Session)
        (c : Client) :
  _client s = Some c ->
  link_up T (clock s) c = true ->
  write_result T (clock s) c payload = None ->
  let s' := snd (send T me payload s) in
  fst (send T me payload s) = Ret tt /\
  _client s' = Some c /\
  _resolved_device s' = _resolved_device s /\
  next_client s' = next_client s /\
  clock s' = S (S (clock s)) /\
  _idle_timeout_s s' = _idle_timeout_s s /\
  (armed s' <-> link_up T (clock s') c = true /\ timeout_enabled s) /\
  exists evs1 evs2,
    trace s'
    = (trace s ++ EvAcquire :: evs1
         ++ EvWrite c WRITE_UUID payload WRITE_WITH_RESPONSE None
         :: EvSleep POST_WRITE_DELAY_S :: evs2
         ++ [EvPrint ("sent: " ++ hex_sep payload); EvRelease])%list /\
    count is_transport_event evs1 = 0%nat /\
    count is_transport_event evs2 = 0%nat /\
    (forall t, _idle_task s = Some t -> t <> me -> In (EvCancel t) evs1) /\
    (forall t v, In (EvCreateTask t v) evs1 -> t <> me -> In (EvCancel t) evs2) /\
    (forall t, _idle_task s' = Some t ->
               exists pre v,
                 _idle_timeout_s s = Some v /\
                 evs2 = (pre ++ [EvCreateTask t v])%list /\
                 (next_task s <= t)%nat).
Proof.
  intros Hc Hup Hw. cbv zeta.
  set (s0 := log EvAcquire s).
  destruct (arm_spec T me s0)
    as (s1 & Harm1 & (Hc1 & Hr1 & Hto1 & Hk1 & Hn1) & _ & _ & Hnt1 & _).
  destruct (at_most_arm T me is_transport_event
              (fun _ => eq_refl) (fun _ _ => eq_refl) 0 s0) as (evs1 & Ht1 & Hz1).
  destruct (arm_trace T me s0) as (can1 & cre1 & Htr1 & Hcan1 & Hcre1).
  rewrite Harm1 in Ht1, Htr1, Hcre1. simpl snd in Ht1, Htr1, Hcre1.
  assert (He1 : evs1 = (can1 ++ cre1)%list).
  { rewrite Ht1 in Htr1. now apply app_inv_head in Htr1. }
  assert (Hens : _ensure_connected T me s0 = (Ret c, s1)).
  { rewrite (ensure_connected_live T me s0 c Hc Hup).
    rewrite (bind_ret_eq _ _ _ _ _ Harm1). reflexivity. }
  set (s2 := log (EvWrite c WRITE_UUID payload WRITE_WITH_RESPONSE None) (tick s1)).
  assert (Hwr : client_write T c payload s1 = (Ret tt, s2)).
  { unfold client_write. rewrite Hk1.
    change (clock s0) with (clock s). rewrite Hw. reflexivity. }
  set (s3 := log (EvSleep POST_WRITE_DELAY_S) (tick s2)).
  destruct (arm_spec T me s3)
    as (s4 & Harm2 & (Hc4 & Hr4 & Hto4 & Hk4 & Hn4) & Harmed & _).
  destruct (at_most_arm T me is_transport_event
              (fun _ => eq_refl) (fun _ _ => eq_refl) 0 s3) as (evs2 & Ht2 & Hz2).
  destruct (arm_trace T me s3) as (can2 & cre2 & Htr2 & Hcan2 & Hcre2).
  rewrite Harm2 in Ht2, Htr2, Hcre2. simpl snd in Ht2, Htr2, Hcre2.
  assert (He2 : evs2 = (can2 ++ cre2)%list).
  { rewrite Ht2 in Htr2. now apply app_inv_head in Htr2. }
  assert (Hrun : send T me payload s
                 = (Ret tt,
                    log EvRelease (log (EvPrint ("sent: " ++ hex_sep payload)) s4))).
  { rewrite send_is_locked_body. unfold with_tx_lock, send_locked. fold s0.
    rewrite (bind_ret_eq _ _ _ _ _ Hens).
    rewrite (bind_ret_eq _ _ _ _ _ (try_except_ret_eq _ _ _ _ _ Hwr)).
    change (float_is_zero POST_WRITE_DELAY_S) with false. cbv iota.
    rewrite (bind_ret_eq (sleep POST_WRITE_DELAY_S) _ s2 s3 tt eq_refl).
    rewrite (bind_ret_eq _ _ _ _ _ Harm2). reflexivity. }
  assert (Hclient3 : _client s3 = Some c) by (simpl; rewrite Hc1; exact Hc).
  assert (Hclock3 : clock s3 = S (S (clock s)))
    by (simpl; rewrite Hk1; reflexivity).
  assert (Hto3 : _idle_timeout_s s3 = _idle_timeout_s s)
    by (simpl; rewrite Hto1; reflexivity).
  assert (Htask3 : _idle_task s3 = _idle_task s1) by reflexivity.
  assert (Hnext3 : (next_task s <= next_task s3)%nat) by exact Hnt1.
  rewrite Hrun. simpl fst. simpl snd.
  split; [reflexivity|].
  split; [simpl; rewrite Hc4; exact Hclient3|].
  split; [simpl; rewrite Hr4; simpl; rewrite Hr1; reflexivity|].
  split; [simpl; rewrite Hn4; simpl; rewrite Hn1; reflexivity|].
  split; [simpl; rewrite Hk4; exact Hclock3|].
  split; [simpl; rewrite Hto4; exact Hto3|].
  split.
  { assert (Hiff : armed s4 <->
                   link_up T (clock s4) c = true /\ timeout_enabled s).
    { rewrite Harmed, Hk4. unfold live, timeout_enabled.
      rewrite Hclient3, Hto3. split.
      - intros [(c' & Hc' & Hup') Hen]. inversion Hc'; subst c'. auto.
      - intros [Hup' Hen]. split; [exists c; auto|exact Hen]. }
    exact Hiff. }
  exists evs1, evs2.
  split; [|split; [lia|split; [lia|split; [|split]]]].
  - simpl. rewrite Ht2. simpl. rewrite Ht1. simpl.
    rewrite <- !app_assoc. simpl. reflexivity.
  - intros t Ht Hne. rewrite He1. apply in_or_app. left.
    destruct Hcan1 as [[_ [Hno|Hme]]|(t' & Ht' & _ & ->)].
    + simpl in Hno. congruence.
    + simpl in Hme. congruence.
    + simpl in Ht'. rewrite Ht in Ht'. inversion Ht'; subst t'. now left.
  - intros t v Hin Hne. rewrite He1 in Hin. apply in_app_or in Hin.
    assert (Hrec : _idle_task s3 = Some t).
    { destruct Hin as [Hin|Hin].
      - destruct Hcan1 as [[-> _]|(t' & _ & _ & ->)]; [destruct Hin|].
        destruct Hin as [Hin|[]]. discriminate Hin.
      - destruct Hcre1 as [[-> _]|(v' & _ & -> & Hrec)]; [destruct Hin|].
        destruct Hin as [Hin|[]]. inversion Hin; subst. exact Hrec. }
    rewrite He2. apply in_or_app. left.
    destruct Hcan2 as [[_ [Hno|Hme]]|(t' & Ht' & _ & ->)].
    + congruence.
    + rewrite Hrec in Hme. inversion Hme. congruence.
    + rewrite Hrec in Ht'. inversion Ht'; subst t'. now left.
  - intros t Ht. simpl in Ht.
    destruct Hcre2 as [[_ Hno]|(v & Hv & -> & Hrec)]; [congruence|].
    rewrite Hrec in Ht. inversion Ht; subst t.
    exists can2, v. split; [rewrite <- Hto3; exact Hv|]. split; [exact He2|].
    exact Hnext3.
Qed.

Lemma send_on_live_connection_witness :
  fst (send T_good MAIN_TASK (pkt_power false) s_connected) = Ret tt /\
  _client (snd (send T_good MAIN_TASK (pkt_power false) s_connected))
  = Some melk_client /\
  armed (snd (send T_good MAIN_TASK (pkt_power false) s_connected)).
Proof.
  destruct (send_on_live_connection T_good MAIN_TASK (pkt_power false)
              s_connected melk_client eq_refl eq_refl eq_refl)
    as (H1 & H2 & _ & _ & _ & _ & Harmed & _).
  split; [exact H1|]. split; [exact H2|].
  apply Harmed. split; [reflexivity|].
  exists DEFAULT_IDLE_TIMEOUT_S. split; reflexivity.
Defined.

Example send_power_off_trace :
  trace (snd (send T_good MAIN_TASK (pkt_power false) s_connected))
  = (trace s_connected
       ++ [EvAcquire; EvCancel 1%nat; EvCreateTask 2%nat DEFAULT_IDLE_TIMEOUT_S;
           EvWrite melk_client WRITE_UUID (pkt_power false) false None;
           EvSleep POST_WRITE_DELAY_S;
           EvCancel 2%nat; EvCreateTask 3%nat DEFAULT_IDLE_TIMEOUT_S;
           EvPrint "sent: 7e 00 04 00 00 00 00 00 ef"; EvRelease])%list.
Proof. vm_compute. reflexivity. Qed.

(** ** The packets and the scan test *)

Lemma check_rgb_in_range (r g b : Z) :
  check_rgb [r; g; b] = Ret tt ->
  in_byte_range r /\ in_byte_range g /\ in_byte_range b.
Proof.
  simpl.
  destruct ((0 <=? r) && (r <=? 255))%Z eqn:Er; [|discriminate].
  destruct ((0 <=? g) && (g <=? 255))%Z eqn:Eg; [|discriminate].
  destruct ((0 <=? b) && (b <=? 255))%Z eqn:Eb; [|discriminate].
  intros _. rewrite <- !range_test. auto.
Qed.

(** X12: every packet an encoder returns is nine bytes, each in 0..255,
    framed by 0x7E and 0xEF; the two encoders never produce the same packet,
    and each packet determines the command it encodes (the power flag, or the
    three colour components). *)
Theorem packets_are_well_formed :
  (forall on,
      List.length (pkt_power on) = 9%nat /\
      Forall in_byte_range (pkt_power on) /\
      nth 0 (pkt_power on) 0%Z = 0x7E%Z /\
      nth 8 (pkt_power on) 0%Z = 0xEF%Z) /\
  (forall r g b p,
      pkt_color r g b = Ret p ->
      List.length p = 9%nat /\
      Forall in_byte_range p /\
      nth 0 p 0%Z = 0x7E%Z /\
      nth 8 p 0%Z = 0xEF%Z /\
      (forall on, p <> pkt_power on) /\
      (forall r' g' b', pkt_color r' g' b' = Ret p ->
                        r' = r /\ g' = g /\ b' = b)) /\
  (forall on on', pkt_power on = pkt_power on' -> on = on').
Proof.
  split; [|split].
  - intros on. split; [reflexivity|]. split; [|split; reflexivity].
    unfold pkt_power, in_byte_range.
    destruct on; repeat constructor; lia.
  - intros r g b p. unfold pkt_color.
    destruct (check_rgb [r; g; b]) as [[]|e] eqn:E; [|discriminate].
    destruct (check_rgb_in_range r g b E) as (Hr & Hg & Hb).
    intros H. inversion H; subst p. clear H.
    split; [reflexivity|]. split.
    { unfold in_byte_range in *. repeat constructor; lia. }
    split; [reflexivity|]. split; [reflexivity|]. split.
    + intros on H. unfold pkt_power in H. inversion H.
    + intros r' g' b'.
      destruct (check_rgb [r'; g'; b']) as [[]|e'] eqn:E'; [|discriminate].
      intros H. inversion H. auto.
  - intros on on' H. unfold pkt_power in H.
    destruct on, on'; try reflexivity; inversion H.
Qed.

Lemma packets_are_well_formed_witness :
  List.length (pkt_power true) = 9%nat /\
  (forall p, pkt_color 0 128 255 = Ret p -> List.length p = 9%nat).
Proof.
  split.
  - apply (proj1 packets_are_well_formed true).
  - intros p Hp.
    apply (proj1 (proj1 (proj2 packets_are_well_formed) 0 128 255 p Hp))%Z.
Defined.

(** ** The scan test on ASCII names *)

Lemma str_app_assoc (a b c : string) : (a ++ b) ++ c = a ++ (b ++ c).
Proof. induction a as [|x a IH]; simpl; [reflexivity|now rewrite IH]. Qed.

Lemma lower_app (a b : string) : lower (a ++ b) = lower a ++ lower b.
Proof. induction a as [|x a IH]; simpl; [reflexivity|now rewrite IH]. Qed.

Lemma is_space_lower (c : ascii) : is_space (lower_ascii c) = is_space c.
Proof.
  destruct c as [[] [] [] [] [] [] [] []]; reflexivity.
Qed.

Lemma lower_lstrip (s : string) : lower (lstrip s) = lstrip (lower s).
Proof.
  induction s as [|x s IH]; simpl; [reflexivity|].
  rewrite is_space_lower. destruct (is_space x); [exact IH|reflexivity].
Qed.

Lemma lower_rstrip (s : string) : lower (rstrip s) = rstrip (lower s).
Proof.
  induction s as [|x s IH]; simpl; [reflexivity|].
  rewrite <- IH, is_space_lower.
  destruct (rstrip s); simpl; [destruct (is_space x)|]; reflexivity.
Qed.

Lemma lower_strip (s : string) : lower (strip s) = strip (lower s).
Proof. unfold strip. now rewrite lower_rstrip, lower_lstrip. Qed.

(** [lstrip] and [rstrip] only remove characters at the ends. *)
Lemma lstrip_suffix (u : string) : exists ws, u = ws ++ lstrip u.
Proof.
  induction u as [|x u (ws & IH)]; simpl; [now exists ""|].
  destruct (is_space x).
  - exists (String x ws). simpl. now rewrite <- IH.
  - now exists "".
Qed.

Lemma rstrip_prefix (u : string) : exists ws, u = rstrip u ++ ws.
Proof.
  induction u as [|x u (ws & IH)]; simpl; [now exists ""|].
  destruct (rstrip u) as [|y r] eqn:Er.
  - destruct (is_space x).
    + exists (String x u). reflexivity.
    + exists ws. simpl. f_equal. exact IH.
  - exists ws. simpl. f_equal. exact IH.
Qed.

(** An occurrence of a string that starts with a non-space character
    survives [lstrip]. *)
Lemma lstrip_keeps (c : ascii) (t pre post : string) :
  is_space c = false ->
  exists pre', lstrip (pre ++ String c t ++ post) = pre' ++ String c t ++ post.
Proof.
  intros Hc. induction pre as [|x pre IH]; simpl.
  - rewrite Hc. now exists "".
  - destruct (is_space x); [exact IH|].
    now exists (String x pre).
Qed.

Lemma rstrip_nonspace (c : ascii) (post : string) :
  is_space c = false -> rstrip (String c post) = String c (rstrip post).
Proof.
  intros Hc. simpl. rewrite Hc. destruct (rstrip post); reflexivity.
Qed.

Lemma rstrip_app_nonempty (a b : string) :
  rstrip b <> "" -> rstrip (a ++ b) = a ++ rstrip b.
Proof.
  intros Hb. induction a as [|x a IH]; simpl; [reflexivity|].
  rewrite IH. destruct (a ++ rstrip b) eqn:E; [|reflexivity].
  destruct a; simpl in E; [congruence|discriminate].
Qed.

(** An occurrence of a string that ends with a non-space character
    survives [rstrip]. *)
Lemma rstrip_keeps (c : ascii) (t pre post : string) :
  is_space c = false ->
  rstrip (pre ++ (t ++ String c "") ++ post)
  = pre ++ (t ++ String c "") ++ rstrip post.
Proof.
  intros Hc.
  rewrite (str_app_assoc t (String c "") post). simpl.
  rewrite <- (str_app_assoc pre t (String c post)).
  rewrite rstrip_app_nonempty.
  - rewrite (rstrip_nonspace c post Hc).
    rewrite (str_app_assoc pre t), (str_app_assoc t (String c "")). reflexivity.
  - rewrite (rstrip_nonspace c post Hc). discriminate.
Qed.

Lemma strip_contains (c0 c1 : ascii) (t0 t1 u : string) :
  is_space c0 = false -> is_space c1 = false ->
  String c0 t0 = t1 ++ String c1 "" ->
  (exists pre post, strip u = pre ++ String c0 t0 ++ post) <->
  (exists pre post, u = pre ++ String c0 t0 ++ post).
Proof.
  intros H0 H1 Ht. split.
  - intros (pre & post & H). unfold strip in H.
    destruct (lstrip_suffix u) as (ws1 & Hu).
    destruct (rstrip_prefix (lstrip u)) as (ws2 & Hl).
    exists (ws1 ++ pre), (post ++ ws2).
    rewrite Hu at 1. rewrite Hl, H.
    rewrite !str_app_assoc. simpl. rewrite ?str_app_assoc. reflexivity.
  - intros (pre & post & H). subst u. unfold strip.
    destruct (lstrip_keeps c0 t0 pre post H0) as (pre' & Hl).
    rewrite Hl. rewrite Ht.
    rewrite (rstrip_keeps c1 t1 pre' post H1). eauto.
Qed.


Lemma lower_ascii_idem (c : ascii) : lower_ascii (lower_ascii c) = lower_ascii c.
Proof. destruct c as [[] [] [] [] [] [] [] []]; reflexivity. Qed.

Lemma lower_idem (s : string) : lower (lower s) = lower s.
Proof.
  induction s as [|c s IH]; simpl; [reflexivity|].
  now rewrite lower_ascii_idem, IH.
Qed.

Lemma lower_ascii_is_ascii (c : ascii) :
  (nat_of_ascii (lower_ascii c) <? 128)%nat = (nat_of_ascii c <? 128)%nat.
Proof. destruct c as [[] [] [] [] [] [] [] []]; reflexivity. Qed.

Lemma is_ascii_lower (s : string) : is_ascii_text (lower s) = is_ascii_text s.
Proof.
  induction s as [|c s IH]; simpl; [reflexivity|].
  now rewrite lower_ascii_is_ascii, IH.
Qed.

Lemma is_ascii_lstrip (s : string) :
  is_ascii_text s = true -> is_ascii_text (lstrip s) = true.
Proof.
  induction s as [|c s IH]; simpl; [auto|].
  intros H. destruct (is_space c); [|exact H].
  apply andb_true_iff in H. apply IH, H.
Qed.

Lemma is_ascii_rstrip (s : string) :
  is_ascii_text s = true -> is_ascii_text (rstrip s) = true.
Proof.
  induction s as [|c s IH]; simpl; [auto|].
  intros H. apply andb_true_iff in H. destruct H as [Hc Hs].
  specialize (IH Hs).
  destruct (rstrip s) as [|y r].
  - destruct (is_space c); simpl; [reflexivity|]. now rewrite Hc.
  - change (is_ascii_text (String c (String y r)))
      with ((nat_of_ascii c <? 128)%nat && is_ascii_text (String y r)).
    now rewrite Hc, IH.
Qed.

Lemma is_ascii_strip (s : string) :
  is_ascii_text s = true -> is_ascii_text (strip s) = true.
Proof. intros H. unfold strip. now apply is_ascii_rstrip, is_ascii_lstrip. Qed.

(** On an ASCII name, with a runtime whose [str.lower] and [str.strip] act
    on ASCII text as [lower] and [strip], the scan test is the search for
    "melk-oa21" in the stripped, lower-cased name. *)
Lemma device_matches_ascii (T : Transport) (n addr : string) :
  (forall s, is_ascii_text s = true -> str_lower T s = lower s) ->
  (forall s, is_ascii_text s = true -> str_strip T s = strip s) ->
  is_ascii_text n = true ->
  device_matches T (mkDevice (Some n) addr)
  = str_in "melk-oa21" (lower (strip n)).
Proof.
  intros Hlower Hstrip Hn. unfold device_matches, MELK_NAMES. simpl.
  rewrite (Hstrip n Hn), (Hlower (strip n) (is_ascii_strip n Hn)).
  rewrite (Hlower "MELK-OA21" eq_refl).
  change (lower "MELK-OA21") with "melk-oa21".
  apply orb_false_r.
Qed.

Lemma contains_melk_strip (u : string) :
  (exists pre post, strip u = pre ++ "melk-oa21" ++ post) <->
  (exists pre post, u = pre ++ "melk-oa21" ++ post).
Proof.
  apply (strip_contains "m" "1" "elk-oa21" "melk-oa2" u); reflexivity.
Qed.

(** X13: for a runtime whose [str.lower] and [str.strip] act on ASCII text
    as Python's do (the letters A to Z are lower-cased, ASCII white space is
    removed at both ends), the test of the scan loop accepts a peripheral
    with an ASCII name exactly when the name contains "MELK-OA21" ignoring
    the case of the letters; changing the name to lower case or stripping
    the white space around it does not change the answer; and a peripheral
    without a name is never accepted. *)
Theorem scan_test_ignores_case_and_padding (T : Transport) :
  (forall s, is_ascii_text s = true -> str_lower T s = lower s) ->
  (forall s, is_ascii_text s = true -> str_strip T s = strip s) ->
  (forall n addr,
      is_ascii_text n = true ->
      (device_matches T (mkDevice (Some n) addr) = true <->
       exists pre post, lower n = pre ++ "melk-oa21" ++ post) /\
      device_matches T (mkDevice (Some (lower n)) addr)
      = device_matches T (mkDevice (Some n) addr) /\
      device_matches T (mkDevice (Some (strip n)) addr)
      = device_matches T (mkDevice (Some n) addr)) /\
  (forall addr, device_matches T (mkDevice None addr) = false).
Proof.
  intros Hlower Hstrip.
  assert (Hspec : forall n addr,
             is_ascii_text n = true ->
             (device_matches T (mkDevice (Some n) addr) = true <->
              exists pre post, lower n = pre ++ "melk-oa21" ++ post)).
  { intros n addr Hn.
    rewrite (device_matches_ascii T n addr Hlower Hstrip Hn).
    rewrite str_in_spec, lower_strip. apply contains_melk_strip. }
  assert (Hbool : forall n n' addr,
             is_ascii_text n = true -> is_ascii_text n' = true ->
             ((exists pre post, lower n = pre ++ "melk-oa21" ++ post) <->
              (exists pre post, lower n' = pre ++ "melk-oa21" ++ post)) ->
             device_matches T (mkDevice (Some n) addr)
             = device_matches T (mkDevice (Some n') addr)).
  { intros n n' addr Hn Hn' H.
    rewrite <- (Hspec n addr Hn), <- (Hspec n' addr Hn') in H.
    destruct (device_matches T (mkDevice (Some n) addr)),
             (device_matches T (mkDevice (Some n') addr)); try reflexivity.
    - symmetry. now apply H.
    - now apply H. }
  split.
  - intros n addr Hn. split; [exact (Hspec n addr Hn)|]. split.
    + apply Hbool; [now rewrite is_ascii_lower|exact Hn|].
      rewrite lower_idem. tauto.
    + apply Hbool; [now apply is_ascii_strip|exact Hn|].
      rewrite lower_strip. apply contains_melk_strip.
  - intros addr. unfold device_matches, MELK_NAMES. simpl.
    rewrite (Hstrip "" eq_refl). change (strip "") with "".
    rewrite (Hlower "" eq_refl), (Hlower "MELK-OA21" eq_refl). reflexivity.
Qed.

Lemma scan_test_ignores_case_and_padding_witness :
  device_matches T_good (mkDevice (Some "  my melk-oa21 strip  ") "11:22") = true /\
  device_matches T_good (mkDevice (Some "MELK-OA2") "11:22") = false /\
  device_matches T_good (mkDevice None "11:22") = false.
Proof.
  destruct (scan_test_ignores_case_and_padding T_good
              (fun s _ => eq_refl) (fun s _ => eq_refl)) as [Hname Hnone].
  split; [|split].
  - apply (proj1 (Hname "  my melk-oa21 strip  " "11:22" eq_refl)).
    exists "  my ", " strip  ". reflexivity.
  - destruct (device_matches T_good (mkDevice (Some "MELK-OA2") "11:22")) eqn:E;
      [|reflexivity].
    apply (proj1 (Hname "MELK-OA2" "11:22" eq_refl)) in E.
    apply (str_in_spec "melk-oa21" (lower "MELK-OA2")) in E. discriminate E.
  - apply Hnone.
Defined.

(** ** The command loop *)

Lemma never_true_ret_false : never_true (ret false).
Proof. intros s b s' H. inversion H. reflexivity. Qed.

Lemma never_true_bind {A} (m : M A) (k : A -> M bool) :
  (forall a, never_true (k a)) -> never_true (bind m k).
Proof.
  intros Hk s b s' H. unfold bind in H.
  destruct (m s) as [[a|e] s1]; [|discriminate].
  apply (Hk a s1 b s' H).
Qed.

Lemma never_true_command_body_rest T parse_int parse_float parse_hex parts :
  is_quit T parts = false ->
  never_true (command_body T parse_int parse_float parse_hex parts).
Proof.
  unfold is_quit, command_body. intros Hq. rewrite Hq.
  repeat match goal with
         | |- never_true (if ?b then _ else _) => destruct b
         | |- never_true (match ?o with Some _ => _ | None => _ end) =>
             destruct o as [[[? ?] ?]|]
         | |- never_true (bind _ _) => apply never_true_bind; intros ?
         | |- never_true (ret false) => apply never_true_ret_false
         end.
Qed.

Lemma public_disconnect_spec (T : Transport) (me : TaskId) (s : Session) :
  exists sd,
    disconnect T me s
    = (of_option (transport_disconnect_failure T (log EvAcquire s)),
       log EvRelease sd) /\
    _client sd = None /\ _idle_task sd = None.
Proof.
  unfold disconnect, with_tx_lock.
  destruct (disconnect_client_spec T me "" (log EvAcquire s))
    as (sd & Hrun & Hc & Hi & _).
  exists sd. rewrite Hrun. auto.
Qed.


(** X14: no command makes the loop raise: an error is printed and the loop
    goes on.  A turn ends the loop only for [quit] or [exit], and only when
    the disconnect it makes did not raise; when the transport disconnect
    raises, the error is printed and the loop goes on, with the handle and
    the timer already cleared. *)
Theorem command_turn_quits_only_after_disconnect
        (T : Transport) (parse_int : string -> Outcome Z)
        (parse_float : string -> Outcome PyFloat) (parse_hex : string -> Outcome Z)
        (parts : list string) (s : Session) :
  exists quit s',
    command_turn T parse_int parse_float parse_hex parts s = (Ret quit, s') /\
    (quit = true ->
     is_quit T parts = true /\
     transport_disconnect_failure T (log EvAcquire s) = None /\
     _client s' = None /\ _idle_task s' = None) /\
    (is_quit T parts = true ->
     forall e,
       transport_disconnect_failure T (log EvAcquire s) = Some e ->
       quit = false /\ _client s' = None /\ _idle_task s' = None /\
       exists sd,
         s' = log (EvPrint ("error: " ++ str_exn e)) (log EvRelease sd)).
Proof.
  unfold command_turn, try_except.
  destruct (is_quit T parts) eqn:Hq.
  - assert (Hbody : command_body T parse_int parse_float parse_hex parts
                    = (disconnect T MAIN_TASK;; ret true)).
    { unfold command_body. unfold is_quit in Hq. rewrite Hq. reflexivity. }
    rewrite Hbody.
    destruct (public_disconnect_spec T MAIN_TASK s) as (sd & Hd & Hc & Hi).
    destruct (transport_disconnect_failure T (log EvAcquire s)) as [e|];
      simpl of_option in Hd.
    + rewrite (bind_raise_eq _ _ _ _ _ Hd).
      eexists; eexists. split; [reflexivity|]. split; [discriminate|].
      intros _ e' He'. inversion He'; subst e'.
      split; [reflexivity|]. split; [exact Hc|]. split; [exact Hi|].
      exists sd. reflexivity.
    + rewrite (bind_ret_eq _ _ _ _ _ Hd).
      eexists; eexists. split; [reflexivity|]. split.
      * intros _. auto.
      * intros _ e' He'. discriminate.
  - pose proof (never_true_command_body_rest T parse_int parse_float parse_hex
                  parts Hq s) as Hnt.
    destruct (command_body T parse_int parse_float parse_hex parts s)
      as [[b|e] s1].
    + specialize (Hnt b s1 eq_refl). subst b.
      eexists; eexists. split; [reflexivity|].
      split; [discriminate|intros H; discriminate].
    + eexists; eexists. split; [reflexivity|].
      split; [discriminate|intros H; discriminate].
Qed.

Lemma command_turn_quits_only_after_disconnect_witness :
  fst (command_turn T_good (fun _ => Ret 0%Z) (fun _ => Ret (Finite 1))
         (fun _ => Ret 0%Z) ["quit"] s_connected) = Ret true /\
  fst (command_turn T_disconnect_fails (fun _ => Ret 0%Z) (fun _ => Ret (Finite 1))
         (fun _ => Ret 0%Z) ["quit"] s_connected) = Ret false.
Proof.
  split.
  - vm_compute. reflexivity.
  - destruct (command_turn_quits_only_after_disconnect
                T_disconnect_fails (fun _ => Ret 0%Z) (fun _ => Ret (Finite 1))
                (fun _ => Ret 0%Z) ["quit"] s_connected)
      as (quit & s' & Hrun & _ & Hfail).
    rewrite Hrun. simpl fst.
    destruct (Hfail eq_refl (BleakError "disconnect failed") eq_refl) as (Hq & _).
    rewrite Hq. reflexivity.
Defined.





Example session_on_then_quit :
  let s' := snd (main T_good (fun _ => Ret 0%Z) (fun _ => Ret (Finite 1))
                   (fun _ => Ret 0%Z) [["on"]; []; ["quit"]] initial) in
  count is_write (trace s') = 1%nat /\
  count is_disconnect (trace s') = 1%nat /\
  _client s' = None.
Proof. vm_compute. repeat split; reflexivity. Qed.

Lemma stable_keeps_timeout_ok : Stable keeps_timeout_ok.
Proof.
  unfold keeps_timeout_ok. constructor; try (intros; assumption).
  intros s1 s2 s3 H1 H2 H. apply H2, H1, H.
Qed.

Lemma arm_keeps_timeout_ok T me :
  guar keeps_timeout_ok (_arm_idle_timer_locked T me).
Proof.
  intros s. destruct (arm_spec T me s) as (s' & Hrun & (_ & _ & Ht & _) & _).
  rewrite Hrun. unfold keeps_timeout_ok, timeout_ok. simpl. now rewrite Ht.
Qed.

Lemma disconnect_keeps_timeout_ok T me reason :
  guar keeps_timeout_ok (_disconnect_client T me reason).
Proof.
  intros s.
  destruct (disconnect_client_spec T me reason s)
    as (s' & Hrun & _ & _ & _ & Ht & _).
  rewrite Hrun. unfold keeps_timeout_ok, timeout_ok. simpl. now rewrite Ht.
Qed.

Lemma set_idle_timeout_keeps_timeout_ok T me (value : option PyFloat) :
  match value with
  | None => True
  | Some v => float_le_zero v = false
  end ->
  guar keeps_timeout_ok (set_idle_timeout T me value).
Proof.
  intros Hv s _.
  destruct (set_idle_timeout_spec T me value s) as (s' & Hrun & Ht).
  rewrite Hrun. unfold timeout_ok. simpl. rewrite Ht. exact Hv.
Qed.

Section CommandLoopTimeout.

Variable T : Transport.
Variable parse_int : string -> Outcome Z.
Variable parse_float : string -> Outcome PyFloat.
Variable parse_hex : string -> Outcome Z.

Lemma guar_timeout_send payload :
  guar keeps_timeout_ok (send T MAIN_TASK payload).
Proof. apply (guar_send _ stable_keeps_timeout_ok T MAIN_TASK (arm_keeps_timeout_ok T MAIN_TASK) (disconnect_keeps_timeout_ok T MAIN_TASK)). Qed.

Lemma guar_timeout_command_idle parts :
  guar keeps_timeout_ok (command_idle T parse_float parts).
Proof.
  unfold command_idle.
  destruct (List.length parts =? 1)%nat.
  { apply guar_bind; [exact stable_keeps_timeout_ok|apply guar_get; exact stable_keeps_timeout_ok|intros label].
    apply guar_print; exact stable_keeps_timeout_ok. }
  destruct (negb (List.length parts =? 2)%nat).
  { apply guar_print; exact stable_keeps_timeout_ok. }
  destruct (String.eqb (str_lower T (nth 1 parts "")) "off").
  { apply guar_bind; [exact stable_keeps_timeout_ok| |intros label; apply guar_print; exact stable_keeps_timeout_ok].
    apply (set_idle_timeout_keeps_timeout_ok T MAIN_TASK None I). }
  apply guar_bind; [exact stable_keeps_timeout_ok|apply guar_lift; exact stable_keeps_timeout_ok|intros seconds].
  destruct (float_le_zero seconds) eqn:E;
    [apply guar_raise; exact stable_keeps_timeout_ok|].
  apply guar_bind; [exact stable_keeps_timeout_ok| |intros label; apply guar_print; exact stable_keeps_timeout_ok].
  apply (set_idle_timeout_keeps_timeout_ok T MAIN_TASK (Some seconds)).
  exact E.
Qed.

Lemma guar_timeout_command_body parts :
  guar keeps_timeout_ok (command_body T parse_int parse_float parse_hex parts).
Proof.
  unfold command_body.
  repeat match goal with
         | |- guar _ (if ?b then _ else _) => destruct b
         | |- guar _ (match ?o with Some _ => _ | None => _ end) =>
             destruct o as [[[? ?] ?]|]
         | |- guar _ (command_idle _ _ _) => apply guar_timeout_command_idle
         | |- guar _ (send _ _ _) => apply guar_timeout_send
         | |- guar _ (disconnect _ _) =>
             apply (guar_public_disconnect _ stable_keeps_timeout_ok T MAIN_TASK (disconnect_keeps_timeout_ok T MAIN_TASK))
         | |- guar _ (ensure_connected _ _) =>
             apply (guar_public_ensure_connected _ stable_keeps_timeout_ok T MAIN_TASK (arm_keeps_timeout_ok T MAIN_TASK) (disconnect_keeps_timeout_ok T MAIN_TASK))
         | |- guar _ (reconnect _ _) =>
             apply (guar_reconnect _ stable_keeps_timeout_ok T MAIN_TASK (arm_keeps_timeout_ok T MAIN_TASK) (disconnect_keeps_timeout_ok T MAIN_TASK))
         | |- guar _ (connection_status _) =>
             apply (guar_connection_status _ stable_keeps_timeout_ok T)
         | |- guar _ (bind _ _) => apply guar_bind; [exact stable_keeps_timeout_ok| |intros ?]
         | |- guar _ (ret _) => apply guar_ret; exact stable_keeps_timeout_ok
         | |- guar _ (lift _) => apply guar_lift; exact stable_keeps_timeout_ok
         | |- guar _ (print _) => apply guar_print; exact stable_keeps_timeout_ok
         | |- guar _ print_help => apply guar_print; exact stable_keeps_timeout_ok
         end.
Qed.

Lemma guar_timeout_command_turn parts :
  guar keeps_timeout_ok (command_turn T parse_int parse_float parse_hex parts).
Proof.
  unfold command_turn.
  apply guar_try_except; [exact stable_keeps_timeout_ok|apply guar_timeout_command_body|intros e].
  apply guar_bind; [exact stable_keeps_timeout_ok|apply guar_print; exact stable_keeps_timeout_ok|intros _].
  apply guar_ret; exact stable_keeps_timeout_ok.
Qed.

Lemma guar_timeout_command_turns lines :
  guar keeps_timeout_ok (command_turns T parse_int parse_float parse_hex lines).
Proof.
  induction lines as [|parts rest IH]; simpl.
  - apply guar_raise; exact stable_keeps_timeout_ok.
  - destruct parts as [|w ws]; [exact IH|].
    apply guar_bind; [exact stable_keeps_timeout_ok|apply guar_timeout_command_turn|intros quit].
    destruct quit; [apply guar_ret; exact stable_keeps_timeout_ok|exact IH].
Qed.

Lemma guar_timeout_main lines :
  guar keeps_timeout_ok (main T parse_int parse_float parse_hex lines).
Proof.
  intros s Hs. unfold main, try_finally_do.
  assert (Hloop : guar keeps_timeout_ok
                    (command_loop T parse_int parse_float parse_hex lines)).
  { unfold command_loop.
    apply guar_bind; [exact stable_keeps_timeout_ok|apply guar_print; exact stable_keeps_timeout_ok|intros _].
    apply guar_timeout_command_turns. }
  specialize (Hloop s Hs).
  destruct (command_loop T parse_int parse_float parse_hex lines s) as [r s1].
  pose proof (guar_public_disconnect _ stable_keeps_timeout_ok T MAIN_TASK (disconnect_keeps_timeout_ok T MAIN_TASK) s1 Hloop) as Hfin.
  destruct (disconnect T MAIN_TASK s1) as [[[]|e] s2]; exact Hfin.
Qed.

End CommandLoopTimeout.

(** X16: through the command loop the idle timeout is never set to a value
    for which [timeout <= 0] holds: if it is [None] or fails that test
    before a turn, or before the whole program, it does so after it.  The
    values that fail the test are the numbers greater than 0 and NaN, which
    [idle nan] stores. *)
Theorem command_loop_never_stores_nonpositive_timeout
        (T : Transport) (parse_int : string -> Outcome Z)
        (parse_float : string -> Outcome PyFloat) (parse_hex : string -> Outcome Z)
        (s : Session) :
  timeout_ok s ->
  (forall parts,
      timeout_ok
        (snd (command_turn T parse_int parse_float parse_hex parts s))) /\
  (forall lines,
      timeout_ok (snd (main T parse_int parse_float parse_hex lines s))).
Proof.
  intros Hs. split.
  - intros parts.
    apply (guar_timeout_command_turn T parse_int parse_float parse_hex parts s Hs).
  - intros lines.
    apply (guar_timeout_main T parse_int parse_float parse_hex lines s Hs).
Qed.

Lemma command_loop_never_stores_nonpositive_timeout_witness :
  timeout_ok
    (snd (command_turn T_good (fun _ => Ret 0%Z) (fun _ => Ret (Finite (-3)))
            (fun _ => Ret 0%Z) ["idle"; "-3"] initial)).
Proof.
  apply (proj1 (command_loop_never_stores_nonpositive_timeout
                  T_good (fun _ => Ret 0%Z) (fun _ => Ret (Finite (-3)))
                  (fun _ => Ret 0%Z) initial
                  (eq_refl : float_le_zero (Finite 300) = false))).
Defined.

(** [idle -3] is refused and leaves the timeout as it was; [idle nan] is
    accepted: NaN is stored, labelled "nan", and a timer is armed with it. *)
Example idle_minus_three_and_idle_nan :
  let refused :=
    command_turn T_good (fun _ => Ret 0%Z) (fun _ => Ret (Finite (-3)))
      (fun _ => Ret 0%Z) ["idle"; "-3"] s_connected in
  let accepted :=
    command_turn T_good (fun _ => Ret 0%Z) (fun _ => Ret NaN)
      (fun _ => Ret 0%Z) ["idle"; "nan"] s_connected in
  refused
  = (Ret false,
     log (EvPrint "error: idle seconds must be > 0, or use 'off'") s_connected) /\
  fst accepted = Ret false /\
  _idle_timeout_s (snd accepted) = Some NaN /\
  _idle_task (snd accepted) = Some 2%nat /\
  trace (snd accepted)
  = (trace s_connected
       ++ [EvAcquire; EvCancel 1%nat; EvCreateTask 2%nat NaN; EvRelease;
           EvPrint "idle timeout set to nans"])%list.
Proof. vm_compute. repeat split; reflexivity. Qed.

Lemma command_body_color T parse_int parse_float parse_hex (w x y z : string) :
  str_lower T w = "color" ->
  command_body T parse_int parse_float parse_hex [w; x; y; z]
  = (r <- lift (parse_int x);;
     g <- lift (parse_int y);;
     b <- lift (parse_int z);;
     payload <- lift (pkt_color r g b);;
     send T MAIN_TASK payload;; ret false).
Proof. intros Hw. unfold command_body. simpl hd. rewrite Hw. reflexivity. Qed.

Lemma command_body_raw T parse_int parse_float parse_hex (w v : string)
      (words : list string) :
  str_lower T w = "raw" ->
  command_body T parse_int parse_float parse_hex (w :: v :: words)
  = (data <- lift (raw_bytes parse_hex (v :: words));;
     send T MAIN_TASK data;; ret false).
Proof. intros Hw. unfold command_body. simpl hd. rewrite Hw. reflexivity. Qed.

Lemma command_body_idle T parse_int parse_float parse_hex (w x : string) :
  str_lower T w = "idle" ->
  String.eqb (str_lower T x) "off" = false ->
  command_body T parse_int parse_float parse_hex [w; x]
  = ((seconds <- lift (parse_float x);;
      if float_le_zero seconds
      then raise (ValueError "idle seconds must be > 0, or use 'off'")
      else
        label <- set_idle_timeout T MAIN_TASK (Some seconds);;
        print ("idle timeout set to " ++ label));;
     ret false).
Proof.
  intros Hw Hoff. unfold command_body. simpl hd. rewrite Hw.
  unfold command_idle. simpl nth. rewrite Hoff. reflexivity.
Qed.

(** X17: a command with bad arguments touches neither the session nor the
    transport nor the lock: it only prints the error.  This holds for
    [color] when [int] rejects the first, the second or the third component,
    or when a component is outside 0..255; for [raw] with a word that
    [int(x, 16)] rejects or that is not a byte; and for [idle] with a word
    that [float] rejects or a number for which [seconds <= 0] holds. *)
Theorem bad_arguments_only_print
        (T : Transport) (parse_int : string -> Outcome Z)
        (parse_float : string -> Outcome PyFloat)
        (parse_hex : string -> Outcome Z) (s : Session) :
  (forall w x y z e,
      str_lower T w = "color" ->
      parse_int x = Raise e ->
      command_turn T parse_int parse_float parse_hex [w; x; y; z] s
      = (Ret false, log (EvPrint ("error: " ++ str_exn e)) s)) /\
  (forall w x y z r e,
      str_lower T w = "color" ->
      parse_int x = Ret r -> parse_int y = Raise e ->
      command_turn T parse_int parse_float parse_hex [w; x; y; z] s
      = (Ret false, log (EvPrint ("error: " ++ str_exn e)) s)) /\
  (forall w x y z r g e,
      str_lower T w = "color" ->
      parse_int x = Ret r -> parse_int y = Ret g -> parse_int z = Raise e ->
      command_turn T parse_int parse_float parse_hex [w; x; y; z] s
      = (Ret false, log (EvPrint ("error: " ++ str_exn e)) s)) /\
  (forall w x y z r g b,
      str_lower T w = "color" ->
      parse_int x = Ret r -> parse_int y = Ret g -> parse_int z = Ret b ->
      ~ (in_byte_range r /\ in_byte_range g /\ in_byte_range b) ->
      command_turn T parse_int parse_float parse_hex [w; x; y; z] s
      = (Ret false, log (EvPrint "error: RGB values must be in 0..255") s)) /\
  (forall w v words e,
      str_lower T w = "raw" ->
      raw_bytes parse_hex (v :: words) = Raise e ->
      command_turn T parse_int parse_float parse_hex (w :: v :: words) s
      = (Ret false, log (EvPrint ("error: " ++ str_exn e)) s)) /\
  (forall w x e,
      str_lower T w = "idle" ->
      String.eqb (str_lower T x) "off" = false ->
      parse_float x = Raise e ->
      command_turn T parse_int parse_float parse_hex [w; x] s
      = (Ret false, log (EvPrint ("error: " ++ str_exn e)) s)) /\
  (forall w x v,
      str_lower T w = "idle" ->
      String.eqb (str_lower T x) "off" = false ->
      parse_float x = Ret v -> float_le_zero v = true ->
      command_turn T parse_int parse_float parse_hex [w; x] s
      = (Ret false,
         log (EvPrint "error: idle seconds must be > 0, or use 'off'") s)).
Proof.
  repeat match goal with |- _ /\ _ => split end.
  - intros w x y z e Hw Hx. unfold command_turn, try_except.
    rewrite (command_body_color T parse_int parse_float parse_hex w x y z Hw).
    unfold bind, lift. rewrite Hx. reflexivity.
  - intros w x y z r e Hw Hx Hy. unfold command_turn, try_except.
    rewrite (command_body_color T parse_int parse_float parse_hex w x y z Hw).
    unfold bind, lift. rewrite Hx, Hy. reflexivity.
  - intros w x y z r g e Hw Hx Hy Hz. unfold command_turn, try_except.
    rewrite (command_body_color T parse_int parse_float parse_hex w x y z Hw).
    unfold bind, lift. rewrite Hx, Hy, Hz. reflexivity.
  - intros w x y z r g b Hw Hx Hy Hz Hbad. unfold command_turn, try_except.
    rewrite (command_body_color T parse_int parse_float parse_hex w x y z Hw).
    unfold bind, lift. rewrite Hx, Hy, Hz.
    unfold pkt_color. rewrite (check_rgb_raises r g b Hbad). reflexivity.
  - intros w v words e Hw He. unfold command_turn, try_except.
    rewrite (command_body_raw T parse_int parse_float parse_hex w v words Hw).
    unfold bind at 1, lift. rewrite He. reflexivity.
  - intros w x e Hw Hoff Hx. unfold command_turn, try_except.
    rewrite (command_body_idle T parse_int parse_float parse_hex w x Hw Hoff).
    unfold bind, lift. rewrite Hx. reflexivity.
  - intros w x v Hw Hoff Hx Hv. unfold command_turn, try_except.
    rewrite (command_body_idle T parse_int parse_float parse_hex w x Hw Hoff).
    unfold bind, lift. rewrite Hx, Hv. reflexivity.
Qed.

Lemma bad_arguments_only_print_witness :
  command_turn T_good (fun _ => Ret 300%Z) (fun _ => Ret (Finite 0))
    (fun _ => Ret 256%Z) ["COLOR"; "300"; "300"; "300"] initial
  = (Ret false, log (EvPrint "error: RGB values must be in 0..255") initial) /\
  command_turn T_good (fun _ => Ret 300%Z) (fun _ => Ret (Finite 0))
    (fun _ => Ret 256%Z) ["raw"; "100"] initial
  = (Ret false, log (EvPrint "error: byte must be in range(0, 256)") initial) /\
  command_turn T_good (fun _ => Ret 300%Z) (fun _ => Ret (Finite 0))
    (fun _ => Ret 256%Z) ["idle"; "0"] initial
  = (Ret false,
     log (EvPrint "error: idle seconds must be > 0, or use 'off'") initial) /\
  command_turn T_good
    (fun x => if String.eqb x "7" then Ret 7%Z
              else Raise (ValueError "invalid literal for int()"))
    (fun _ => Ret (Finite 0)) (fun _ => Ret 256%Z)
    ["color"; "7"; "7"; "x"] initial
  = (Ret false, log (EvPrint "error: invalid literal for int()") initial).
Proof.
  destruct (bad_arguments_only_print
              T_good (fun _ => Ret 300%Z) (fun _ => Ret (Finite 0))
              (fun _ => Ret 256%Z) initial)
    as (_ & _ & _ & Hcolor & Hraw & _ & Hidle).
  destruct (bad_arguments_only_print
              T_good
              (fun x => if String.eqb x "7" then Ret 7%Z
                        else Raise (ValueError "invalid literal for int()"))
              (fun _ => Ret (Finite 0)) (fun _ => Ret 256%Z) initial)
    as (_ & _ & Hthird & _).
  split; [|split; [|split]].
  - apply (Hcolor "COLOR" "300" "300" "300" 300 300 300
                  eq_refl eq_refl eq_refl eq_refl)%Z.
    unfold in_byte_range. lia.
  - apply (Hraw "raw" "100" [] (ValueError "byte must be in range(0, 256)"));
      reflexivity.
  - apply (Hidle "idle" "0" (Finite 0)); reflexivity.
  - apply (Hthird "color" "7" "7" "x" 7%Z 7%Z
                  (ValueError "invalid literal for int()")); reflexivity.
Defined.
